(** * ts-dumper: the transcript selection and export pipeline

    A shallow embedding of [get_text_from_transcript] and of the page loop of
    [cli] in [ts-dumper.py], and the properties of the export of a page. *)

From Stdlib Require Import ZArith List Ascii String Lia.
From stdpp Require Import base gmap strings list pretty.
Import ListNotations.

Local Open Scope string_scope.
Local Open Scope Z_scope.
Set Warnings "-register-all".

(** ** Exceptions and results *)

(** The exceptions, all subclasses of [Exception], that the modelled lines
    raise themselves or receive from the libraries they call. *)
Inductive exn : Type :=
| ValueError                       (* max() of an empty list; a year out of range; a NUL in a file name *)
| IndexError                       (* [][0] *)
| KeyError (key : string)          (* d[key], key missing *)
| TypeError                        (* subscript, membership or write_text on a wrong type *)
| RequestException                 (* requests.get: transport failure *)
| UnicodeDecodeError               (* bytes.decode() *)
| ExpatError                       (* xmltodict.parse: body is not XML *)
| OverflowError                    (* datetime.fromtimestamp: out of the range of time_t *)
| IsADirectoryError (path : string) (* open(path, 'w') on a directory *)
| OSError (errno : Z) (strerror : string) (filename : option string)
                                   (* a system call that failed: open, localtime *)
| MarkupError.                     (* rich: a closing tag that closes nothing *)

Inductive result (A : Type) : Type :=
| Ok (a : A)
| Raise (e : exn).
Arguments Ok {A} a.
Arguments Raise {A} e.

Definition rbind {A B} (r : result A) (k : A -> result B) : result B :=
  match r with
  | Ok a => k a
  | Raise e => Raise e
  end.

Declare Scope result_scope.
Delimit Scope result_scope with res.
Notation "x <~ r ;; k" := (rbind r (fun x => k))
  (at level 20, r at level 99, k at level 200) : result_scope.

(** ** Values built by xmltodict *)

(** What [xmltodict.parse] builds for an element: [None] for an empty
    element, a [str] for an element with text only, a dict for an element
    with attributes or children, and a list where a child tag is repeated. *)
Inductive xval : Type :=
| XNone
| XStr (s : string)
| XDict (d : list (string * xval))
| XList (l : list xval).

Definition char_tab : string := String (ascii_of_nat 9) EmptyString.
Definition char_nl : string := String (ascii_of_nat 10) EmptyString.

Fixpoint dict_get (k : string) (d : list (string * xval)) : option xval :=
  match d with
  | [] => None
  | (k', v) :: d' => if String.eqb k k' then Some v else dict_get k d'
  end.

(** [needle in hay] on two [str]: substring test. *)
Definition str_contains (needle hay : string) : bool :=
  match String.index 0 needle hay with
  | Some _ => true
  | None => false
  end.

(** [x == k] for a [str] k: only a [str] can be equal to it. *)
Definition eq_str (k : string) (x : xval) : bool :=
  match x with
  | XStr s => String.eqb s k
  | _ => false
  end.

(** [k in v] for a [str] k. *)
Definition py_in (k : string) (v : xval) : result bool :=
  match v with
  | XDict d => Ok (match dict_get k d with Some _ => true | None => false end)
  | XStr s => Ok (str_contains k s)
  | XList l => Ok (existsb (eq_str k) l)
  | XNone => Raise TypeError
  end.

(** [v[k]] for a [str] k. *)
Definition py_getitem (v : xval) (k : string) : result xval :=
  match v with
  | XDict d => match dict_get k d with
               | Some x => Ok x
               | None => Raise (KeyError k)
               end
  | _ => Raise TypeError
  end.

Definition is_none (v : xval) : bool :=
  match v with
  | XNone => true
  | _ => false
  end.

(** [len(v)]. *)
Definition py_len (v : xval) : result nat :=
  match v with
  | XStr s => Ok (String.length s)
  | XDict d => Ok (List.length d)
  | XList l => Ok (List.length l)
  | XNone => Raise TypeError
  end.

(** ** Pages and their transcripts *)

(** One entry of [page['tsList']['transcripts']]. The two keys the program
    subscripts are always present in the service's records; the three it
    reads with [.get] may be missing. *)
Record transcript : Type := mkTranscript {
  timestamp : Z;
  url : string;
  status : option string;
  userName : option string;
  nrOfLines : option Z
}.

Record page : Type := mkPage {
  imgFileName : string;
  transcripts : list transcript
}.

(** The two lines the loop prints, by what is put into their text. *)
Inductive event : Type :=
| Writing (path : string) (nchars : nat)   (* progress.console.print, l.262 *)
| ErrorProcessing (p : page) (ex : exn).   (* cprint, l.275 *)

(** ** The remote service and the libraries *)

Record response : Type := mkResponse {
  status_code : Z;
  content : string
}.

(** What the program takes from outside: the service behind [requests.get]
    (the session headers are fixed for a run), the decoding and parsing of a
    body, [datetime.fromtimestamp] applied to a number of milliseconds,
    [Path(...).stem], what rich makes of a line printed with markup on
    (nothing, or an exception such as [MarkupError] when the text of the
    line holds a closing tag that closes nothing), and what [open(path, 'w')]
    says to a name before any entry is looked at (a name that is too long
    or holds a NUL is refused). One [world] is one state of the remote data
    on one machine. *)
Record world : Type := mkWorld {
  requests_get : string -> result response;
  decode : string -> result string;
  xmltodict_parse : string -> result xval;
  fromtimestamp : Z -> result unit;
  path_stem : string -> string;
  render : event -> result unit;
  open_name : string -> result unit
}.

(** Lines 96-102 of [get_text_from_transcript]: from the parsed document to
    the text, [XNone] standing for [None]. *)
Definition text_of_parsed (tmp : xval) : result xval :=
  (tmp_pcgts <~ py_getitem tmp "PcGts" ;;
   pg <~ py_getitem tmp_pcgts "Page" ;;
   has_tr <~ py_in "TextRegion" pg ;;
   if has_tr : bool then
     (tr <~ py_getitem pg "TextRegion" ;;
      has_te <~ py_in "TextEquiv" tr ;;
      if has_te : bool then
        (te <~ py_getitem tr "TextEquiv" ;;
         u <~ py_getitem te "Unicode" ;;
         if negb (is_none u) then
           (te2 <~ py_getitem tr "TextEquiv" ;;
            py_getitem te2 "Unicode")
         else Ok XNone)
      else Ok XNone)
   else Ok XNone)%res.

Definition get_text_from_transcript (w : world) (url : string) : result xval :=
  (rv <~ requests_get w url ;;
   body <~ decode w (content rv) ;;
   tmp <~ xmltodict_parse w body ;;
   text_of_parsed tmp)%res.

(** ** The target directory, the console and the progress bar *)

(** An entry of the target directory, by name. [Path.stem] holds no
    separator, so both files of a page are direct entries of it. *)
Inductive node : Type :=
| File (data : string)
| Dir.

Record state : Type := mkState {
  fs : gmap string node;
  console : list event;
  advanced : nat
}.

(** Statements of the loop body: they read and change the state and may
    raise; what was done before an exception stays done. *)
Definition M (A : Type) : Type := state -> result A * state.

Definition ret {A} (a : A) : M A := fun st => (Ok a, st).

Definition bind {A B} (m : M A) (k : A -> M B) : M B :=
  fun st =>
    match m st with
    | (Ok a, st') => k a st'
    | (Raise e, st') => (Raise e, st')
    end.

Definition lift {A} (r : result A) : M A := fun st => (r, st).

(** [try: body except Exception as ex: handler(ex)]. *)
Definition try_except (body : M unit) (handler : exn -> M unit) : M unit :=
  fun st =>
    match body st with
    | (Ok tt, st') => (Ok tt, st')
    | (Raise ex, st') => handler ex st'
    end.

Declare Scope M_scope.
Delimit Scope M_scope with M.
Notation "x <- m ;; k" := (bind m (fun x => k))
  (at level 20, m at level 99, k at level 200) : M_scope.

(** [console.print] and rich's [print]: the line is rendered first, and
    shown only when that raised nothing. *)
Definition console_print (w : world) (ev : event) : M unit :=
  fun st =>
    match render w ev with
    | Ok _ => (Ok tt, mkState (fs st) (console st ++ [ev]) (advanced st))
    | Raise ex => (Raise ex, st)
    end.

Definition progress_advance : M unit :=
  fun st => (Ok tt, mkState (fs st) (console st) (S (advanced st))).

(** [Path.write_text]: the type of the data is checked before the file is
    opened; opening fails on a name the file system refuses and on a
    directory; otherwise the file is created or replaced. *)
Definition write_text (w : world) (path : string) (data : xval) : M unit :=
  fun st =>
    match data with
    | XStr s =>
        match open_name w path with
        | Raise ex => (Raise ex, st)
        | Ok _ =>
            match fs st !! path with
            | Some Dir => (Raise (IsADirectoryError path), st)
            | _ => (Ok tt, mkState (<[path := File s]> (fs st)) (console st) (advanced st))
            end
        end
    | _ => (Raise TypeError, st)
    end.

(** ** The selection *)

(** [max(l)]: the first greatest element, [ValueError] on an empty list. An
    element replaces the running maximum only when it is strictly greater. *)
Definition max_step (m y : Z) : Z := if m <? y then y else m.

Definition py_max (l : list Z) : result Z :=
  match l with
  | [] => Raise ValueError
  | x :: xs => Ok (fold_left max_step xs x)
  end.

(** [l[0]]. *)
Definition item0 {A} (l : list A) : result A :=
  match l with
  | [] => Raise IndexError
  | x :: _ => Ok x
  end.

(** l.242 *)
Definition max_ts_of (ts : list transcript) : result Z :=
  py_max (map timestamp ts).

(** l.245-247 *)
Definition latest_of (max_ts : Z) (ts : list transcript) : list transcript :=
  List.filter (fun x => max_ts =? timestamp x) ts.

(** l.250-256 *)
Definition o_latest_of (latest0 : transcript) (ts : list transcript) : list transcript :=
  List.filter (fun x => negb (timestamp latest0 =? timestamp x)) ts.

(** [d.get(key, default)] followed by the formatting of an f-string. *)
Definition get_str (field : option string) (default : string) : string :=
  match field with
  | Some s => s
  | None => default
  end.

Definition get_int (field : option Z) (default : Z) : string :=
  match field with
  | Some n => pretty n
  | None => pretty default
  end.

(** l.268-272 *)
Definition meta_of (latest0 : transcript) : list string :=
  [ ("status:" ++ char_tab ++ get_str (status latest0) "N/A")%string;
    ("userName:" ++ char_tab ++ get_str (userName latest0) "N/A")%string;
    ("nrOfLines:" ++ char_tab ++ get_int (nrOfLines latest0) 0)%string ].

Definition text_file_name_of (w : world) (p : page) : string :=
  (path_stem w (imgFileName p) ++ ".txt")%string.

Definition meta_file_name_of (w : world) (p : page) : string :=
  (path_stem w (imgFileName p) ++ "-meta.txt")%string.

(** ** The body of the page loop *)

(** l.242-261: the selection and the two fetches, which leave the target
    directory and the console alone. The result is the list [latest] and
    the value of [text] when l.262 is reached. *)
Definition fetch_page_text (w : world) (p : page) : result (list transcript * xval) :=
  (let transcripts := transcripts p in
   max_ts <~ max_ts_of transcripts ;;
   _ <~ fromtimestamp w max_ts ;;
   let latest := latest_of max_ts transcripts in
   latest0 <~ item0 latest ;;
   text <~ get_text_from_transcript w (url latest0) ;;
   text <~ (if is_none text then
              (latest0 <~ item0 latest ;;
               let o_latest := o_latest_of latest0 transcripts in
               o_latest0 <~ item0 o_latest ;;
               get_text_from_transcript w (url o_latest0))
            else Ok text) ;;
   let text := if is_none text then XStr "" else text in
   Ok (latest, text))%res.

(** l.262-273: the console line and the two files. *)
Definition write_page (w : world) (p : page) (latest : list transcript) (text : xval) : M unit :=
  (let text_file_path := text_file_name_of w p in
   let meta_file_path := meta_file_name_of w p in
   nchars <- lift (py_len text) ;;
   _ <- console_print w (Writing text_file_path nchars) ;;
   _ <- write_text w text_file_path text ;;
   match latest with
   | latest0 :: _ =>
       write_text w meta_file_path (XStr (String.concat char_nl (meta_of latest0)))
   | [] => ret tt
   end)%M.

(** l.235-273, the statements inside [try]. *)
Definition page_body (w : world) (p : page) : M unit :=
  (sel <- lift (fetch_page_text w p) ;;
   write_page w p (fst sel) (snd sel))%M.

(** l.234-279: one turn of [for page in pages]. An exception of the print
    in the [except] clause is taken by nothing: it ends the turn before
    [progress.advance], and the loop with it. *)
Definition process_page (w : world) (p : page) : M unit :=
  (_ <- try_except (page_body w p)
                   (fun ex => console_print w (ErrorProcessing p ex)) ;;
   progress_advance)%M.

(** l.233-279: [for page in pages]. *)
Fixpoint process_pages (w : world) (pages : list page) : M unit :=
  match pages with
  | [] => ret tt
  | p :: rest => (_ <- process_page w p ;; process_pages w rest)%M
  end.

(** The turn of the loop in the vocabulary of the specification's
    [exportPage]: the state it leaves, and as outcome the branch of the
    [try] statement that was taken. No statement of the source yields
    [Skipped]. *)
Inductive ExportOutcome : Type :=
| Written
| Skipped (reason : string)
| Errored (ex : exn).

Definition exportPage (w : world) (p : page) (st : state) : ExportOutcome * state :=
  match page_body w p st with
  | (Ok _, _) => (Written, snd (process_page w p st))
  | (Raise ex, _) => (Errored ex, snd (process_page w p st))
  end.

(** ** A small world for closed examples *)

(** [PurePosixPath(name).stem]: the final component of the name, empty
    components and [.] left out, up to its last dot unless that dot is its
    first or its last character. *)
Fixpoint last_dot (s : string) (i : nat) (acc : option nat) : option nat :=
  match s with
  | EmptyString => acc
  | String c s' => last_dot s' (S i) (if Ascii.eqb c "." then Some i else acc)
  end.

Definition stem_of_name (name : string) : string :=
  match last_dot name 0 None with
  | Some i => if ((0 <? i) && (i <? String.length name - 1))%nat
              then String.substring 0 i name else name
  | None => name
  end.

Fixpoint split_slash (s cur : string) : list string :=
  match s with
  | EmptyString => [cur]
  | String c r =>
      if Ascii.eqb c "/" then cur :: split_slash r EmptyString
      else split_slash r (cur ++ String c EmptyString)
  end.

Definition final_component (path : string) : string :=
  List.last
    (List.filter (fun c => negb (String.eqb c "") && negb (String.eqb c "."))
                 (split_slash path EmptyString))
    EmptyString.

Definition posix_stem (path : string) : string := stem_of_name (final_component path).

Fixpoint assoc {A} (k : string) (l : list (string * A)) : option A :=
  match l with
  | [] => None
  | (k', v) :: l' => if String.eqb k k' then Some v else assoc k l'
  end.

(** [bytes.decode()] for bodies within the code points that a character of
    [string] can hold: a byte below 128 stands for itself and the two-byte
    sequences that begin with 194 or 195 give the code points 128 to 255.
    Any other byte is refused, also where it begins a sequence that UTF-8
    allows for a code point above 255. *)
Fixpoint decode_utf8 (bytes : string) : result string :=
  match bytes with
  | EmptyString => Ok EmptyString
  | String c r =>
      let n := nat_of_ascii c in
      if (n <? 128)%nat then
        (rest <~ decode_utf8 r ;; Ok (String c rest))%res
      else if ((n =? 194) || (n =? 195))%nat then
        match r with
        | String c2 r2 =>
            let m := nat_of_ascii c2 in
            if ((128 <=? m) && (m <? 192))%nat then
              (rest <~ decode_utf8 r2 ;;
               Ok (String (ascii_of_nat ((n - 192) * 64 + (m - 128))) rest))%res
            else Raise UnicodeDecodeError
        | EmptyString => Raise UnicodeDecodeError
        end
      else Raise UnicodeDecodeError
  end.

(** [datetime.fromtimestamp(ms / 1e3)] in a process whose time zone is UTC,
    with the division taken as exact and a [time_t] of 64 bits: the years 1
    to 9999 have a date; a year outside them is a [ValueError] as long as
    [localtime] can hold it in an [int]; beyond that [localtime] fails with
    [EOVERFLOW], and a number of seconds that does not fit [time_t] is an
    [OverflowError]. *)
Definition fromtimestamp_utc (ms : Z) : result unit :=
  if (-62135596800000 <=? ms) && (ms <? 253402300800000) then Ok tt
  else if (-67768040609740800000 <=? ms) && (ms <? 67767976233532800000)
  then Raise ValueError
  else if (-9223372036854775808000 <=? ms) && (ms <? 9223372036854775808000)
  then Raise (OSError 75 "Value too large for defined data type" None)
  else Raise OverflowError.

(** rich's reading of markup: a tag is an opening bracket, a character
    among [a-z], [#], [/] and [@], then the characters up to the next closing
    bracket with no opening bracket between; an odd number of backslashes
    before it makes it plain text. A tag that begins with [/] closes the
    last tag of that name, or the last tag when it has no name, and raises
    when there is none; any other tag is opened. Meta tags are not
    interpreted. *)
Definition is_tag_start (c : ascii) : bool :=
  let n := nat_of_ascii c in
  ((97 <=? n) && (n <=? 122) || (n =? 35) || (n =? 47) || (n =? 64))%nat.

Fixpoint until_close (s : string) : option string :=
  match s with
  | EmptyString => None
  | String c r =>
      if Ascii.eqb c "]" then Some EmptyString
      else if Ascii.eqb c "[" then None
      else option_map (String c) (until_close r)
  end.

Definition tag_at (after_bracket : string) : option string :=
  match after_bracket with
  | String c _ => if is_tag_start c then until_close after_bracket else None
  | EmptyString => None
  end.

Fixpoint before_equals (s : string) : string :=
  match s with
  | EmptyString => EmptyString
  | String c r => if Ascii.eqb c "=" then EmptyString else String c (before_equals r)
  end.

(** The characters that [str.strip] removes, among the code points up to
    255. *)
Definition is_space (c : ascii) : bool :=
  let n := nat_of_ascii c in
  ((n =? 32) || (9 <=? n) && (n <=? 13) || (28 <=? n) && (n <=? 31)
   || (n =? 133) || (n =? 160))%nat.

Fixpoint lstrip (l : list ascii) : list ascii :=
  match l with
  | c :: r => if is_space c then lstrip r else l
  | [] => []
  end.

Definition lower (c : ascii) : ascii :=
  let n := nat_of_ascii c in
  if ((65 <=? n) && (n <=? 90) || (192 <=? n) && (n <=? 222) && negb (n =? 215))%nat
  then ascii_of_nat (n + 32) else c.

(** [name.strip().lower()] *)
Definition normalize (name : string) : string :=
  string_of_list_ascii
    (map lower (rev (lstrip (rev (lstrip (list_ascii_of_string name)))))).

Fixpoint pop_style (name : string) (stack : list string) : option (list string) :=
  match stack with
  | [] => None
  | t :: rest =>
      if String.eqb t name then Some rest
      else option_map (cons t) (pop_style name rest)
  end.

Definition apply_tag (tag_text : string) (stack : list string) : option (list string) :=
  match before_equals tag_text with
  | String "/" closed =>
      match normalize closed with
      | EmptyString => match stack with
                       | _ :: rest => Some rest
                       | [] => None
                       end
      | style_name => pop_style style_name stack
      end
  | name => Some (normalize name :: stack)
  end.

(** [skip] characters of a tag already read are passed over; [bs] counts
    the backslashes that come just before the current character. *)
Fixpoint markup_ok (s : string) (skip bs : nat) (stack : list string) : bool :=
  match s with
  | EmptyString => true
  | String c rest =>
      match skip with
      | S k => markup_ok rest k 0 stack
      | O =>
          if Ascii.eqb c "\" then markup_ok rest 0 (S bs) stack
          else if Ascii.eqb c "[" then
            match tag_at rest with
            | Some tag =>
                if Nat.odd bs then markup_ok rest (S (String.length tag)) 0 stack
                else match apply_tag tag stack with
                     | Some stack' => markup_ok rest (S (String.length tag)) 0 stack'
                     | None => false
                     end
            | None => markup_ok rest 0 0 stack
            end
          else markup_ok rest 0 0 stack
      end
  end.

(** [repr] of a [str]: between double quotes when it holds a single quote
    and no double quote, between single quotes otherwise; the quote, the
    backslash, tab, newline and return are escaped with a backslash, and a
    character that is not printable is written [\xNN]. *)
Definition hex_digit (n : nat) : ascii :=
  if (n <? 10)%nat then ascii_of_nat (48 + n) else ascii_of_nat (87 + n).

Definition is_printable (n : nat) : bool :=
  ((32 <=? n) && (n <? 127) || (161 <=? n) && negb (n =? 173))%nat.

Fixpoint has_char (c : ascii) (s : string) : bool :=
  match s with
  | EmptyString => false
  | String c' r => Ascii.eqb c c' || has_char c r
  end.

Fixpoint repr_chars (quote : ascii) (s : string) : string :=
  match s with
  | EmptyString => EmptyString
  | String c r =>
      let n := nat_of_ascii c in
      (if Ascii.eqb c quote || Ascii.eqb c "\" then String "\" (String c EmptyString)
       else if (n =? 9)%nat then "\t"
       else if (n =? 10)%nat then "\n"
       else if (n =? 13)%nat then "\r"
       else if is_printable n then String c EmptyString
       else String "\" (String "x" (String (hex_digit (n / 16))
                                           (String (hex_digit (n mod 16)) EmptyString))))
      ++ repr_chars quote r
  end%string.

Definition quoted (s : string) : string :=
  let quote : ascii :=
    if has_char "'" s && negb (has_char (ascii_of_nat 34) s)
    then ascii_of_nat 34 else "'"%char in
  String quote (repr_chars quote s ++ String quote EmptyString).

(** The text of the two lines, for a target directory that is the current
    directory and a page that has just the keys the program reads. *)

Definition repr_field (key : string) (value : option string) : string :=
  match value with
  | Some v => (", '" ++ key ++ "': " ++ v)%string
  | None => EmptyString
  end.

Definition repr_transcript (t : transcript) : string :=
  ("{'timestamp': " ++ pretty (timestamp t) ++ ", 'url': " ++ quoted (url t)
   ++ repr_field "status" (option_map quoted (status t))
   ++ repr_field "userName" (option_map quoted (userName t))
   ++ repr_field "nrOfLines" (option_map pretty (nrOfLines t)) ++ "}")%string.

Definition repr_page (p : page) : string :=
  ("{'imgFileName': " ++ quoted (imgFileName p) ++ ", 'tsList': {'transcripts': ["
   ++ String.concat ", " (map repr_transcript (transcripts p)) ++ "]}}")%string.

(** [str(ex)], with one message for each class: the messages of a class
    differ in their wording, and none of them holds a bracket or a backslash
    of its own. *)
Definition str_exn (ex : exn) : string :=
  match ex with
  | ValueError => "max() arg is an empty sequence"
  | IndexError => "list index out of range"
  | KeyError k => quoted k
  | TypeError => "data must be str"
  | RequestException => "connection failed"
  | UnicodeDecodeError => "invalid start byte"
  | ExpatError => "syntax error"
  | OverflowError => "timestamp out of range for platform time_t"
  | IsADirectoryError path => ("[Errno 21] Is a directory: " ++ quoted path)%string
  | OSError errno strerror filename =>
      ("[Errno " ++ pretty errno ++ "] " ++ strerror
       ++ match filename with
          | Some name => ": " ++ quoted name
          | None => EmptyString
          end)%string
  | MarkupError => "closing tag has nothing to close"
  end.

Definition event_text (ev : event) : string :=
  match ev with
  | Writing path nchars =>
      ("Writing " ++ path ++ " with " ++ pretty (Z.of_nat nchars) ++ " characters.")%string
  | ErrorProcessing p ex =>
      ("[bold red]Error[/bold red] Processing " ++ repr_page p ++ ": "
       ++ str_exn ex ++ " ")%string
  end.

Definition render_rich (ev : event) : result unit :=
  if markup_ok (event_text ev) 0 0 [] then Ok tt else Raise MarkupError.

Fixpoint has_nul (s : string) : bool :=
  match s with
  | EmptyString => false
  | String c r => (nat_of_ascii c =? 0)%nat || has_nul r
  end.

(** The bytes of a name in UTF-8. *)
Fixpoint utf8_length (s : string) : nat :=
  match s with
  | EmptyString => 0%nat
  | String c r => ((if (nat_of_ascii c <? 128)%nat then 1 else 2) + utf8_length r)%nat
  end.

(** [open(name, 'w')] in a directory where a name has at most 255 bytes. *)
Definition open_posix (name : string) : result unit :=
  if has_nul name then Raise ValueError
  else if (255 <? utf8_length name)%nat
  then Raise (OSError 36 "File name too long" (Some name))
  else Ok tt.

(** A service that answers the listed urls, and a parser that knows the
    listed bodies. *)
Definition table_world (remote : list (string * response))
                       (parses : list (string * xval)) : world :=
  {| requests_get := fun url =>
       match assoc url remote with
       | Some rv => Ok rv
       | None => Raise RequestException
       end;
     decode := decode_utf8;
     xmltodict_parse := fun body =>
       match assoc body parses with
       | Some tmp => Ok tmp
       | None => Raise ExpatError
       end;
     fromtimestamp := fromtimestamp_utc;
     path_stem := posix_stem;
     render := render_rich;
     open_name := open_posix |}.

Definition pcgts (page_children : list (string * xval)) : xval :=
  XDict [("PcGts", XDict [("Page", XDict (("@imageFilename", XStr "img001.jpg") :: page_children))])].

Definition region (text : xval) : xval :=
  XDict [("@id", XStr "r1"); ("TextEquiv", XDict [("Unicode", text)])].

Definition st0 : state := mkState ∅ [] 0.

Definition body_no_region : string :=
  "<PcGts><Page imageFilename='img001.jpg'/></PcGts>".

Definition body_fallback : string :=
  "<PcGts><Page imageFilename='img001.jpg'><TextRegion id='r1'><TextEquiv><Unicode>fallback text</Unicode></TextEquiv></TextRegion></Page></PcGts>".

(** A service that answers one url with status 404 and a well-formed
    transcript without text region. *)
Definition world_404 : world :=
  table_world [("https://t/ts/1", mkResponse 404 body_no_region)]
              [(body_no_region, pcgts [])].

(** The service of the scenarios: the transcript at A holds a text, those
    at B and C hold no text region. *)
Definition world_demo : world :=
  table_world [("https://t/A", mkResponse 200 body_fallback);
               ("https://t/B", mkResponse 200 body_no_region);
               ("https://t/C", mkResponse 200 body_no_region)]
              [(body_no_region, pcgts []);
               (body_fallback, pcgts [("TextRegion", region (XStr "fallback text"))])].

Definition version_A : transcript :=
  mkTranscript 100 "https://t/A" (Some "DONE") (Some "alice") (Some 5).
Definition version_B : transcript :=
  mkTranscript 200 "https://t/B" (Some "IN_PROGRESS") (Some "bob") (Some 0).
Definition version_B100 : transcript :=
  mkTranscript 100 "https://t/B" (Some "NEW") None None.
Definition version_C100 : transcript :=
  mkTranscript 100 "https://t/C" (Some "NEW") None None.

Definition page_two_versions : page := mkPage "img001.jpg" [version_A; version_B].
Definition page_same_timestamp : page := mkPage "img002.jpg" [version_B100; version_C100].
Definition page_one_version : page := mkPage "img003.jpg" [version_B100].
Definition page_no_version : page := mkPage "img004.jpg" [].

(** A target directory in which the name of the metadata file of
    [img001.jpg] is taken by a directory. *)
Definition st_meta_dir : state := mkState {[ "img001-meta.txt" := Dir ]} [] 0.

(** ** The effect of a turn on the target directory *)

(** The files a turn writes, in order, each with its content: nothing
    unless the text is a string and its line can be printed, then the text
    file unless its name is refused or is a directory, then the metadata
    file on the same terms ([process_page_fs] below). *)
Definition page_writes (w : world) (p : page) (m : gmap string node) : list (string * string) :=
  match fetch_page_text w p with
  | Ok (latest, XStr s) =>
      match render w (Writing (text_file_name_of w p) (String.length s)),
            open_name w (text_file_name_of w p),
            m !! text_file_name_of w p with
      | Ok _, Ok _, Some Dir => []
      | Ok _, Ok _, _ =>
          (text_file_name_of w p, s) ::
          match latest with
          | [] => []
          | latest0 :: _ =>
              match open_name w (meta_file_name_of w p), m !! meta_file_name_of w p with
              | Ok _, Some Dir => []
              | Ok _, _ => [(meta_file_name_of w p, String.concat char_nl (meta_of latest0))]
              | Raise _, _ => []
              end
          end
      | _, _, _ => []
      end
  | _ => []
  end.

Definition apply_writes (ws : list (string * string)) (m : gmap string node) : gmap string node :=
  fold_left (fun m0 kv => <[fst kv := File (snd kv)]> m0) ws m.

(** What one turn of the loop leaves in the target directory, as a function
    of the directory it finds. *)
Definition export_effect (w : world) (p : page) (m : gmap string node) : gmap string node :=
  apply_writes (page_writes w p m) m.

(** Whether a turn raises, as a function of the directory it finds. *)
Definition turn_result (w : world) (p : page) (m : gmap string node) : result unit :=
  fst (process_page w p (mkState m [] 0)).

(** The files a run writes: those of its pages, up to and with the first
    page whose turn raises. *)
Fixpoint run_writes (w : world) (pages : list page) (m : gmap string node)
  : list (string * string) :=
  match pages with
  | [] => []
  | p :: rest =>
      page_writes w p m ++
      match turn_result w p m with
      | Ok _ => run_writes w rest m
      | Raise _ => []
      end
  end.

(** ** Further pages for closed examples *)

Definition version_far : transcript :=
  mkTranscript 1000000000000000 "https://t/A" (Some "DONE") None None.
Definition version_gone : transcript :=
  mkTranscript 300 "https://t/gone" (Some "NEW") None None.
Definition version_D : transcript :=
  mkTranscript 100 "https://t/D" (Some "DONE") (Some "carol") (Some 1).
Definition version_A50 : transcript :=
  mkTranscript 50 "https://t/A" (Some "NEW") None None.

Definition page_far_future : page := mkPage "img005.jpg" [version_far].
Definition page_gone : page := mkPage "img006.jpg" [version_A; version_gone].
Definition page_attr : page := mkPage "img007.jpg" [version_D].
Definition page_text : page := mkPage "img008.jpg" [version_A; version_A50].
Definition page_same_stem : page := mkPage "img001.png" [version_A].

Definition body_attr : string :=
  "<PcGts><Page imageFilename='img001.jpg'><TextRegion id='r1'><TextEquiv><Unicode lang='la'>salve</Unicode></TextEquiv></TextRegion></Page></PcGts>".

Definition unicode_with_attr : xval :=
  XDict [("@lang", XStr "la"); ("#text", XStr "salve")].

(** A service whose transcript at D has a [Unicode] element with an
    attribute. *)
Definition world_attr : world :=
  table_world [("https://t/D", mkResponse 200 body_attr)]
              [(body_attr, pcgts [("TextRegion", region unicode_with_attr)])].

Definition body_second : string :=
  "<PcGts><Page imageFilename='img001.png'><TextRegion id='r1'><TextEquiv><Unicode>second text</Unicode></TextEquiv></TextRegion></Page></PcGts>".

(** A service with two transcripts that hold different texts. *)
Definition world_two_texts : world :=
  table_world [("https://t/A", mkResponse 200 body_fallback);
               ("https://t/E", mkResponse 200 body_second)]
              [(body_fallback, pcgts [("TextRegion", region (XStr "fallback text"))]);
               (body_second, pcgts [("TextRegion", region (XStr "second text"))])].

Definition version_E : transcript :=
  mkTranscript 100 "https://t/E" (Some "GT") (Some "dave") (Some 2).

Definition page_jpg : page := mkPage "img001.jpg" [version_A].
Definition page_png : page := mkPage "img001.png" [version_E].

Definition page_both_none : page := mkPage "img009.jpg" [version_C100; version_B].

(** A target directory that holds a file of its own. *)
Definition st_notes : state := mkState {[ "notes.txt" := File "keep" ]} [] 0.

(** ** Values built by the JSON decoder *)

(** What [rv.json()] builds; numbers are the integers of the service. *)
Inductive jval : Type :=
| JNull
| JBool (b : bool)
| JNum (n : Z)
| JStr (s : string)
| JList (l : list jval)
| JDict (d : list (string * jval)).

Fixpoint jdict_get (k : string) (d : list (string * jval)) : option jval :=
  match d with
  | [] => None
  | (k', v) :: d' => if String.eqb k k' then Some v else jdict_get k d'
  end.

(** [v[k]] for a [str] k. *)
Definition j_getitem (v : jval) (k : string) : result jval :=
  match v with
  | JDict d => match jdict_get k d with
               | Some x => Ok x
               | None => Raise (KeyError k)
               end
  | _ => Raise TypeError
  end.

(** The items that iterating over [v] yields: those of a list, the keys of
    a dict, the characters of a [str]; the other values are not iterable. *)
Definition j_iter (v : jval) : result (list jval) :=
  match v with
  | JList l => Ok l
  | JDict d => Ok (map (fun kv => JStr (fst kv)) d)
  | JStr s => Ok (map (fun c => JStr (String c EmptyString)) (list_ascii_of_string s))
  | _ => Raise TypeError
  end.

(** [v == name] for a [str] name. *)
Definition j_eq_str (v : jval) (name : string) : bool :=
  match v with
  | JStr s => String.eqb s name
  | _ => false
  end.

(** ** The REST service *)

(** [requests.get(url, headers=headers)], [requests.post(url, data=data)],
    [rv.json()] on the body of a response, and the evaluation of an XPath
    expression on a body by lxml. *)
Record service : Type := mkService {
  http_get : string -> list (string * string) -> result response;
  http_post : string -> list (string * string) -> result response;
  json_of : string -> result jval;
  xpath_eval : string -> string -> result (list string)
}.

Definition TRANSKRIBUS_BASE : string := "https://transkribus.eu/TrpServer".
Definition TRANSKRIBUS_REST : string := (TRANSKRIBUS_BASE ++ "/rest")%string.
Definition TRANSKRIBUS_LOGIN : string := (TRANSKRIBUS_REST ++ "/auth/login")%string.

(** [Response.raise_for_status] of requests: [HTTPError], which is a
    [RequestException], for a status from 400 to 599. *)
Definition raise_for_status (rv : response) : result unit :=
  if (400 <=? status_code rv) && (status_code rv <? 600)
  then Raise RequestException
  else Ok tt.

(** l.74-76 *)
Definition _xmlParse__xpathEval_getContent (sv : service) (xml_bytes xml_expression : string)
  : result (list string) :=
  xpath_eval sv xml_bytes xml_expression.

(** l.79-89 *)
Definition auth_login (sv : service) (username password : string) : result (option string) :=
  (let data := [("user", username); ("pw", password)] in
   rv <~ http_post sv TRANSKRIBUS_LOGIN data ;;
   _ <~ raise_for_status rv ;;
   session_id <~ _xmlParse__xpathEval_getContent sv (content rv) "//sessionId/text()" ;;
   match session_id with
   | session_id0 :: _ => Ok (Some session_id0)
   | [] => Ok None
   end)%res.

(** [list(filter(lambda x: x['colName'] == name, collections))], the items
    being tested from left to right. *)
Fixpoint filter_colName (name : string) (items : list jval) : result (list jval) :=
  match items with
  | [] => Ok []
  | x :: rest =>
      (colName <~ j_getitem x "colName" ;;
       kept <~ filter_colName name rest ;;
       Ok (if j_eq_str colName name then x :: kept else kept))%res
  end.

(** l.105-113 *)
Definition get_collection_from_name (sv : service) (name : string)
           (headers : list (string * string)) : result (option jval) :=
  (rv <~ http_get sv (TRANSKRIBUS_REST ++ "/collections")%string headers ;;
   _ <~ raise_for_status rv ;;
   j <~ json_of sv (content rv) ;;
   collections <~ j_getitem j "trpCollection" ;;
   items <~ j_iter collections ;;
   collection <~ filter_colName name items ;;
   match collection with
   | collection0 :: _ => Ok (Some collection0)
   | [] => Ok None
   end)%res.

(** A service for closed examples: it answers the listed urls, decodes the
    listed bodies and finds the listed session ids. *)
Definition table_service (gets : list (string * response))
                         (jsons : list (string * jval))
                         (session_ids : list (string * list string)) : service :=
  {| http_get := fun url _ =>
       match assoc url gets with
       | Some rv => Ok rv
       | None => Raise RequestException
       end;
     http_post := fun url _ =>
       match assoc url gets with
       | Some rv => Ok rv
       | None => Raise RequestException
       end;
     json_of := fun body =>
       match assoc body jsons with
       | Some j => Ok j
       | None => Raise RequestException
       end;
     xpath_eval := fun body _ =>
       match assoc body session_ids with
       | Some ids => Ok ids
       | None => Ok []
       end |}.

Definition collection_json (id : Z) (name : string) : jval :=
  JDict [("colId", JNum id); ("colName", JStr name); ("description", JStr name)].

Definition collections_body : string := "{trpCollection: [...]}".

Definition login_body : string := "<trpUserLogin><sessionId>ABC</sessionId></trpUserLogin>".

Definition service_demo : service :=
  table_service
    [((TRANSKRIBUS_REST ++ "/collections")%string, mkResponse 200 collections_body);
     (TRANSKRIBUS_LOGIN, mkResponse 200 login_body)]
    [(collections_body,
      JDict [("trpCollection",
              JList [collection_json 1 "Other"; collection_json 2 "Cadmania";
                     collection_json 3 "Cadmania"])])]
    [(login_body, ["ABC"])].

Definition service_bad_record : service :=
  table_service
    [((TRANSKRIBUS_REST ++ "/collections")%string, mkResponse 200 collections_body)]
    [(collections_body,
      JDict [("trpCollection",
              JList [collection_json 2 "Cadmania"; JDict [("colId", JNum 9)]])])]
    [].

Definition service_gone : service :=
  table_service
    [((TRANSKRIBUS_REST ++ "/collections")%string, mkResponse 401 collections_body)]
    [(collections_body,
      JDict [("trpCollection", JList [collection_json 2 "Cadmania"])])]
    [].

(** ** The documents of a collection *)

(** One entry of the listing of a collection, with the two keys the program
    subscripts. *)
Record document : Type := mkDocument {
  docId : Z;
  title : string
}.

(** [d[k] = v] on a dict in insertion order: the value of a key already
    there is replaced where it stands, a new key goes to the end. *)
Fixpoint dict_set {V} (k : Z) (v : V) (d : list (Z * V)) : list (Z * V) :=
  match d with
  | [] => [(k, v)]
  | (k', v') :: d' => if k =? k' then (k', v) :: d' else (k', v') :: dict_set k v d'
  end.

(** l.206-221: the first loop, over the documents of the listing. [fulldoc]
    stands for the request of l.209-213 and the pages found in its answer
    at l.214-215, for a collection and a document; [task] counts the
    advances of the progress bar. The loop stops at the first exception. *)
Fixpoint get_pages_per_doc (fulldoc : Z -> Z -> result (list page)) (collection_id : Z)
         (docs : list document) (docs_pages : list (Z * (document * list page)))
         (task : nat) : result (list (Z * (document * list page))) * nat :=
  match docs with
  | [] => (Ok docs_pages, task)
  | doc :: rest =>
      match fulldoc collection_id (docId doc) with
      | Raise ex => (Raise ex, task)
      | Ok pages =>
          get_pages_per_doc fulldoc collection_id rest
            (dict_set (docId doc) (doc, pages) docs_pages) (S task)
      end
  end.

(** l.228-280: the second loop, over [docs_pages.items()]. *)
Fixpoint export_docs (w : world) (docs_pages : list (Z * (document * list page)))
         (st : state) (task : nat) : result unit * (state * nat) :=
  match docs_pages with
  | [] => (Ok tt, (st, task))
  | (doc_id, obj) :: rest =>
      match process_pages w (snd obj) st with
      | (Ok _, st') => export_docs w rest st' (S task)
      | (Raise ex, st') => (Raise ex, (st', task))
      end
  end.

(** l.203-280: both loops. The result holds the state of the target
    directory and of the console, and the advances of the two progress
    bars. *)
Definition export_collection (w : world) (fulldoc : Z -> Z -> result (list page))
           (collection_id : Z) (docs : list document) (st : state)
  : result unit * (state * nat * nat) :=
  match get_pages_per_doc fulldoc collection_id docs [] 0 with
  | (Raise ex, fetched) => (Raise ex, (st, fetched, 0%nat))
  | (Ok docs_pages, fetched) =>
      match export_docs w docs_pages st 0 with
      | (r, (st', exported)) => (r, (st', fetched, exported))
      end
  end.

(** The page list kept for each document id, documents left out. *)
Definition pages_by_id (docs_pages : list (Z * (document * list page)))
  : list (Z * list page) :=
  map (fun e => (fst e, snd (snd e))) docs_pages.

(** Listings for closed examples. *)
Definition fulldoc_demo (collection_id doc_id : Z) : result (list page) :=
  if doc_id =? 1 then Ok [page_two_versions]
  else if doc_id =? 2 then Ok [page_no_version; page_text]
  else Raise RequestException.

Definition doc1 : document := mkDocument 1 "Liber primus".
Definition doc2 : document := mkDocument 2 "Liber secundus".
Definition doc1_again : document := mkDocument 1 "Liber primus (bis)".
Definition doc3 : document := mkDocument 3 "Liber tertius".

(** ** Pages whose strings hold a closing tag *)

Definition version_tagged : transcript :=
  mkTranscript 100 "https://t/A" (Some "[/b]") (Some "erin") None.

Definition page_tagged : page := mkPage "img001.jpg" [version_tagged].
Definition page_bracket : page := mkPage "a[/b].jpg" [].

(** * Properties *)

(** ** Selection of the primary version *)

Local Open Scope list_scope.

Section Selection.

Lemma fold_max_ge_init (xs : list Z) (x : Z) :
  x <= fold_left max_step xs x.
Proof.
  revert x. induction xs as [|y ys IH]; intros x; simpl; [lia|].
  specialize (IH (max_step x y)). unfold max_step in *.
  destruct (Z.ltb_spec x y); lia.
Qed.

Lemma fold_max_upper (xs : list Z) (x : Z) :
  forall y, In y xs -> y <= fold_left max_step xs x.
Proof.
  revert x. induction xs as [|z zs IH]; intros x y Hin; simpl in *; [tauto|].
  destruct Hin as [->|Hin]; [|now apply IH].
  pose proof (fold_max_ge_init zs (max_step x y)) as Hge. unfold max_step in *.
  destruct (Z.ltb_spec x y); lia.
Qed.

Lemma fold_max_in (xs : list Z) (x : Z) :
  In (fold_left max_step xs x) (x :: xs).
Proof.
  revert x. induction xs as [|z zs IH]; intros x; simpl; [tauto|].
  destruct (IH (max_step x z)) as [Heq|Hin]; [|tauto].
  rewrite <- Heq. unfold max_step. destruct (x <? z); tauto.
Qed.

Lemma py_max_spec (l : list Z) :
  l <> [] ->
  exists m, py_max l = Ok m /\ In m l /\ forall y, In y l -> y <= m.
Proof.
  destruct l as [|x xs]; [congruence|]. intros _.
  exists (fold_left max_step xs x). split; [reflexivity|]. split.
  - apply fold_max_in.
  - intros y [->|Hin]; [apply fold_max_ge_init | now apply fold_max_upper].
Qed.

Lemma filter_head_split {A} (f : A -> bool) (l : list A) (x : A) (rest : list A) :
  List.filter f l = x :: rest ->
  exists pre post,
    l = pre ++ x :: post /\ f x = true /\ forall y, In y pre -> f y = false.
Proof.
  induction l as [|a l IH]; simpl; [discriminate|].
  destruct (f a) eqn:Hfa.
  - intros [= -> _]. exists [], l. simpl. tauto.
  - intros Hf. destruct (IH Hf) as (pre & post & -> & Hx & Hpre).
    exists (a :: pre), post. simpl. repeat split; [assumption|].
    intros y [->|Hy]; auto.
Qed.

Lemma latest_of_nonempty (ts : list transcript) (m : Z) :
  In m (map timestamp ts) -> latest_of m ts <> [].
Proof.
  intros Hin. apply in_map_iff in Hin as (t & Ht & Hin).
  intros Hnil.
  assert (In t (latest_of m ts)) as Hl.
  { apply filter_In. split; [assumption|]. apply Z.eqb_eq. congruence. }
  rewrite Hnil in Hl. destruct Hl.
Qed.

(** C1. For every non-empty list of versions, [max] and the filter of
    l.242-248 pick a version [latest[0]] whose timestamp is at least that of
    every version of the list, and every version listed before it has a
    strictly smaller timestamp: among the versions with the greatest
    timestamp it is the first in list order. *)
Theorem primary_is_first_latest (ts : list transcript) :
  ts <> [] ->
  exists max_ts primary pre post,
    max_ts_of ts = Ok max_ts /\
    item0 (latest_of max_ts ts) = Ok primary /\
    ts = pre ++ primary :: post /\
    timestamp primary = max_ts /\
    (forall t, In t ts -> timestamp t <= timestamp primary) /\
    (forall t, In t pre -> timestamp t < timestamp primary).
Proof.
  intros Hne.
  destruct (py_max_spec (map timestamp ts)) as (m & Hmax & Hin & Hub).
  { destruct ts; [congruence | discriminate]. }
  pose proof (latest_of_nonempty ts m Hin) as Hl.
  destruct (latest_of m ts) as [|p rest] eqn:Hlat; [congruence|].
  destruct (filter_head_split _ _ _ _ Hlat) as (pre & post & Hts & Hp & Hpre).
  apply Z.eqb_eq in Hp.
  exists m, p, pre, post. unfold max_ts_of.
  assert (forall t, In t ts -> timestamp t <= m) as Hle.
  { intros t Ht. apply Hub. now apply in_map. }
  split; [assumption|]. split; [now rewrite Hlat|]. split; [assumption|].
  split; [lia|]. split.
  - intros t Ht. rewrite <- Hp. now apply Hle.
  - intros t Ht. rewrite <- Hp.
    assert (timestamp t <= m) by (apply Hle; rewrite Hts; apply in_or_app; tauto).
    specialize (Hpre t Ht). apply Z.eqb_neq in Hpre. lia.
Qed.

End Selection.

(** ** Extraction of the text from a parsed transcript *)

Section TextOfParsed.

Variables (tmp root : xval) (pg : list (string * xval)).
Hypothesis Hroot : py_getitem tmp "PcGts" = Ok root.
Hypothesis Hpage : py_getitem root "Page" = Ok (XDict pg).

(** A page element without a [TextRegion] child gives [None]. *)
Lemma text_without_region :
  dict_get "TextRegion" pg = None -> text_of_parsed tmp = Ok XNone.
Proof.
  intros Hno. unfold text_of_parsed. rewrite Hroot. simpl. rewrite Hpage. simpl.
  now rewrite Hno.
Qed.

(** A single text region without a [TextEquiv] child gives [None]. *)
Lemma text_without_equiv (tr : list (string * xval)) :
  dict_get "TextRegion" pg = Some (XDict tr) ->
  dict_get "TextEquiv" tr = None ->
  text_of_parsed tmp = Ok XNone.
Proof.
  intros Htr Hno. unfold text_of_parsed. rewrite Hroot. simpl. rewrite Hpage. simpl.
  rewrite Htr. simpl. now rewrite Hno.
Qed.

(** X23. A single text region whose [Unicode] element is empty gives [None],
    and one whose [Unicode] element has a value gives that value. *)
Lemma text_of_single_region (tr te : list (string * xval)) (u : xval) :
  dict_get "TextRegion" pg = Some (XDict tr) ->
  dict_get "TextEquiv" tr = Some (XDict te) ->
  dict_get "Unicode" te = Some u ->
  text_of_parsed tmp = Ok u.
Proof.
  intros Htr Hte Hu. unfold text_of_parsed. rewrite Hroot. simpl. rewrite Hpage. simpl.
  rewrite Htr. simpl. rewrite Hte. simpl. rewrite Hu. simpl.
  destruct u; simpl; try reflexivity; now rewrite Hu.
Qed.

(** Several text regions come as a list; unless one of its items is the
    bare string [TextEquiv], the membership test of l.99 is false on it and
    the result is [None], whatever the regions hold. *)
Lemma text_of_region_list (regions : list xval) :
  dict_get "TextRegion" pg = Some (XList regions) ->
  existsb (eq_str "TextEquiv") regions = false ->
  text_of_parsed tmp = Ok XNone.
Proof.
  intros Htr Hno. unfold text_of_parsed. rewrite Hroot. simpl. rewrite Hpage. simpl.
  rewrite Htr. simpl. now rewrite Hno.
Qed.

(** X28. A single text region whose [TextEquiv] element is empty, or has
    no [Unicode] child, does not give [None]: the subscript of l.100 raises
    [TypeError] on the empty element and [KeyError] on the missing child. *)
Lemma text_equiv_without_unicode_raises (tr : list (string * xval)) :
  dict_get "TextRegion" pg = Some (XDict tr) ->
  (dict_get "TextEquiv" tr = Some XNone -> text_of_parsed tmp = Raise TypeError) /\
  (forall te, dict_get "TextEquiv" tr = Some (XDict te) ->
              dict_get "Unicode" te = None ->
              text_of_parsed tmp = Raise (KeyError "Unicode")).
Proof.
  intros Htr. split.
  - intros Hte. unfold text_of_parsed. rewrite Hroot. simpl. rewrite Hpage. simpl.
    rewrite Htr. simpl. now rewrite Hte.
  - intros te Hte Hno. unfold text_of_parsed. rewrite Hroot. simpl. rewrite Hpage. simpl.
    rewrite Htr. simpl. rewrite Hte. simpl. now rewrite Hno.
Qed.

End TextOfParsed.

(** C6. A parsed transcript with two text regions, each with a non-null
    recognized text: the result is [None], not the text of the first one. *)
Theorem two_regions_give_none :
  text_of_parsed
    (pcgts [("TextRegion", XList [region (XStr "first"); region (XStr "second")])])
  = Ok XNone.
Proof. reflexivity. Qed.

Section Fetch.

Variables (w : world) (u : string).

(** The status code of the response is never read: the result is that of
    the body alone. *)
Lemma fetch_ignores_status (rv : response) (body : string) (tmp : xval) :
  requests_get w u = Ok rv ->
  decode w (content rv) = Ok body ->
  xmltodict_parse w body = Ok tmp ->
  get_text_from_transcript w u = text_of_parsed tmp.
Proof.
  intros Hget Hdec Hparse. unfold get_text_from_transcript.
  rewrite Hget. simpl. rewrite Hdec. simpl. now rewrite Hparse.
Qed.

(** A transport failure is passed on. *)
Lemma fetch_transport_failure (e : exn) :
  requests_get w u = Raise e -> get_text_from_transcript w u = Raise e.
Proof. intros Hget. unfold get_text_from_transcript. now rewrite Hget. Qed.

(** A body that does not decode or does not parse is passed on as the
    exception of the decoder or of the parser. *)
Lemma fetch_unparsable_body (rv : response) (e : exn) :
  requests_get w u = Ok rv ->
  (body <~ decode w (content rv) ;; xmltodict_parse w body)%res = Raise e ->
  get_text_from_transcript w u = Raise e.
Proof.
  intros Hget Hbad. unfold get_text_from_transcript. rewrite Hget. simpl.
  destruct (decode w (content rv)) as [body|e']; simpl in *; [|congruence].
  now rewrite Hbad.
Qed.

End Fetch.

(** C7. The response has status 404 and a body that parses: the fetch
    returns [None] and raises nothing. *)
Theorem non_2xx_is_not_an_error :
  (status_code <$> match requests_get world_404 "https://t/ts/1" with
                   | Ok rv => Some rv
                   | Raise _ => None
                   end) = Some 404 /\
  get_text_from_transcript world_404 "https://t/ts/1" = Ok XNone.
Proof. split; reflexivity. Qed.

(** ** Lists of writes *)

Section Writes.

Lemma apply_writes_snoc (ws : list (string * string)) (k c : string) (m : gmap string node) :
  apply_writes (ws ++ [(k, c)]) m = <[k := File c]> (apply_writes ws m).
Proof. unfold apply_writes. now rewrite fold_left_app. Qed.

Lemma apply_writes_app (ws1 ws2 : list (string * string)) (m : gmap string node) :
  apply_writes (ws1 ++ ws2) m = apply_writes ws2 (apply_writes ws1 m).
Proof. unfold apply_writes. apply fold_left_app. Qed.

Lemma apply_writes_other (ws : list (string * string)) (m : gmap string node) (k : string) :
  ~ In k (map fst ws) -> apply_writes ws m !! k = m !! k.
Proof.
  revert m. induction ws as [|[k' c] ws IH]; intros m Hnot; [reflexivity|].
  simpl in *. change (apply_writes ws (<[k' := File c]> m) !! k = m !! k).
  rewrite IH by tauto. apply lookup_insert_ne. tauto.
Qed.

Lemma apply_writes_written (ws : list (string * string)) (m m' : gmap string node) (k : string) :
  In k (map fst ws) -> apply_writes ws m !! k = apply_writes ws m' !! k.
Proof.
  revert m m'. induction ws as [|[k' c] ws IH]; intros m m' Hin; [destruct Hin|].
  change (apply_writes ws (<[k' := File c]> m) !! k =
          apply_writes ws (<[k' := File c]> m') !! k).
  destruct (in_dec string_dec k (map fst ws)) as [Hlater|Hnot].
  - now apply IH.
  - rewrite !apply_writes_other by assumption.
    destruct Hin as [Heq|Hin]; [|contradiction]. simpl in Heq. subst k'.
    now rewrite !lookup_insert_eq.
Qed.

Lemma apply_writes_file (ws : list (string * string)) (m : gmap string node) (k : string) :
  In k (map fst ws) -> exists c, apply_writes ws m !! k = Some (File c).
Proof.
  revert m. induction ws as [|[k' c] ws IH] using rev_ind; intros m Hin; [destruct Hin|].
  rewrite apply_writes_snoc. rewrite map_app in Hin. apply in_app_or in Hin.
  destruct (decide (k' = k)) as [->|Hne].
  - exists c. apply lookup_insert_eq.
  - rewrite lookup_insert_ne by assumption. apply IH.
    destruct Hin as [Hin|[Heq|[]]]; [assumption|]. simpl in Heq. congruence.
Qed.

Lemma apply_writes_dir (ws : list (string * string)) (m : gmap string node) (k : string) :
  (forall k0, In k0 (map fst ws) -> m !! k0 <> Some Dir) ->
  (apply_writes ws m !! k = Some Dir <-> m !! k = Some Dir).
Proof.
  intros Hfree.
  destruct (in_dec string_dec k (map fst ws)) as [Hin|Hnot].
  - destruct (apply_writes_file ws m k Hin) as [c Hc]. rewrite Hc.
    split; [discriminate|]. intros Hd. now apply Hfree in Hin.
  - now rewrite apply_writes_other.
Qed.

Lemma apply_writes_twice (ws : list (string * string)) (m : gmap string node) :
  apply_writes ws (apply_writes ws m) = apply_writes ws m.
Proof.
  apply map_eq. intros k.
  destruct (in_dec string_dec k (map fst ws)) as [Hin|Hnot].
  - now apply apply_writes_written.
  - now rewrite apply_writes_other.
Qed.

End Writes.

(** ** One turn of the page loop *)

Ltac break_match :=
  repeat match goal with
         | |- context [ match ?x with _ => _ end ] => destruct x eqn:?; simpl
         end.

Ltac break_match_in H :=
  repeat match type of H with
         | context [ match ?x with _ => _ end ] =>
             destruct x eqn:?; simpl in H; try discriminate H
         end.

Section PageExport.

Variables (w : world) (p : page).

Lemma text_meta_names_differ :
  text_file_name_of w p <> meta_file_name_of w p.
Proof.
  unfold text_file_name_of, meta_file_name_of.
  induction (path_stem w (imgFileName p)) as [|c s IH]; simpl.
  - discriminate.
  - intros [= H]. now apply IH.
Qed.

(** The body of a page whose selection or fetch raises leaves the state as
    it found it. *)
Lemma page_body_fetch_raises (st : state) (ex : exn) :
  fetch_page_text w p = Raise ex -> page_body w p st = (Raise ex, st).
Proof. intros H. unfold page_body, bind, lift. now rewrite H. Qed.

Lemma page_body_fetch_ok (st : state) (latest : list transcript) (text : xval) :
  fetch_page_text w p = Ok (latest, text) ->
  page_body w p st = write_page w p latest text st.
Proof. intros H. unfold page_body, bind, lift. now rewrite H. Qed.

(** l.262-273 on a text that is a string, step by step. *)
Lemma write_page_str (latest : list transcript) (s : string) (st : state) :
  write_page w p latest (XStr s) st =
  match render w (Writing (text_file_name_of w p) (String.length s)) with
  | Raise ex => (Raise ex, st)
  | Ok _ =>
      let c1 := console st ++ [Writing (text_file_name_of w p) (String.length s)] in
      match open_name w (text_file_name_of w p) with
      | Raise ex => (Raise ex, mkState (fs st) c1 (advanced st))
      | Ok _ =>
          match fs st !! text_file_name_of w p with
          | Some Dir =>
              (Raise (IsADirectoryError (text_file_name_of w p)),
               mkState (fs st) c1 (advanced st))
          | _ =>
              let m1 := <[text_file_name_of w p := File s]> (fs st) in
              match latest with
              | [] => (Ok tt, mkState m1 c1 (advanced st))
              | latest0 :: _ =>
                  match open_name w (meta_file_name_of w p) with
                  | Raise ex => (Raise ex, mkState m1 c1 (advanced st))
                  | Ok _ =>
                      match fs st !! meta_file_name_of w p with
                      | Some Dir =>
                          (Raise (IsADirectoryError (meta_file_name_of w p)),
                           mkState m1 c1 (advanced st))
                      | _ =>
                          (Ok tt,
                           mkState (<[meta_file_name_of w p :=
                                        File (String.concat char_nl (meta_of latest0))]> m1)
                                   c1 (advanced st))
                      end
                  end
              end
          end
      end
  end.
Proof.
  pose proof text_meta_names_differ as Hne.
  unfold write_page, bind, lift, console_print, write_text, ret. simpl.
  destruct (render w _) as [[]|e]; simpl; [|reflexivity].
  destruct (open_name w (text_file_name_of w p)) as [[]|e]; simpl; [|reflexivity].
  destruct (fs st !! text_file_name_of w p) as [[data|]|]; simpl; try reflexivity;
    (destruct latest as [|latest0 rest]; simpl; [reflexivity|]);
    (destruct (open_name w (meta_file_name_of w p)) as [[]|e]; simpl; [|reflexivity]);
    rewrite lookup_insert_ne by assumption;
    destruct (fs st !! meta_file_name_of w p) as [[data'|]|]; reflexivity.
Qed.

(** l.262-266 on a text that is not a string: its length is printed, and
    [write_text] refuses it. *)
Lemma write_page_not_str (latest : list transcript) (t : xval) (n : nat) (st : state) :
  py_len t = Ok n ->
  (forall s, t <> XStr s) ->
  write_page w p latest t st =
  match render w (Writing (text_file_name_of w p) n) with
  | Raise ex => (Raise ex, st)
  | Ok _ =>
      (Raise TypeError,
       mkState (fs st) (console st ++ [Writing (text_file_name_of w p) n]) (advanced st))
  end.
Proof.
  intros Hlen Hnostr.
  unfold write_page, bind, lift, console_print, write_text. rewrite Hlen.
  destruct (render w _) as [[]|e]; [|reflexivity].
  destruct t as [|s|d|l]; simpl; try reflexivity.
  now destruct (Hnostr s).
Qed.

(** A body that runs to its end had a string to write, has printed its one
    line and has written both files. *)
Lemma write_page_ok_inv (latest : list transcript) (text : xval) (st st' : state) :
  write_page w p latest text st = (Ok tt, st') ->
  exists s,
    text = XStr s /\
    render w (Writing (text_file_name_of w p) (String.length s)) = Ok tt /\
    st' =
    mkState
      (match latest with
       | [] => <[text_file_name_of w p := File s]> (fs st)
       | latest0 :: _ =>
           <[meta_file_name_of w p := File (String.concat char_nl (meta_of latest0))]>
             (<[text_file_name_of w p := File s]> (fs st))
       end)
      (console st ++ [Writing (text_file_name_of w p) (String.length s)])
      (advanced st).
Proof.
  intros Hok. destruct text as [|s|d|l].
  - unfold write_page, bind, lift in Hok. simpl in Hok. discriminate.
  - exists s. split; [reflexivity|]. rewrite write_page_str in Hok.
    destruct (render w _) as [[]|e]; [|discriminate]. split; [reflexivity|].
    break_match_in Hok; now injection Hok as <-.
  - rewrite (write_page_not_str latest (XDict d) _ st eq_refl) in Hok by discriminate.
    destruct (render w _); discriminate.
  - rewrite (write_page_not_str latest (XList l) _ st eq_refl) in Hok by discriminate.
    destruct (render w _); discriminate.
Qed.

(** The state a turn leaves, from what its body did: an exception of the
    body is printed with the page, and when that print raises, its
    exception leaves the turn. *)
Lemma process_page_of_body (st : state) :
  process_page w p st =
  match page_body w p st with
  | (Ok _, st') => (Ok tt, mkState (fs st') (console st') (S (advanced st')))
  | (Raise ex, st') =>
      match render w (ErrorProcessing p ex) with
      | Ok _ =>
          (Ok tt,
           mkState (fs st') (console st' ++ [ErrorProcessing p ex]) (S (advanced st')))
      | Raise ex' => (Raise ex', st')
      end
  end.
Proof.
  unfold process_page, bind, try_except, console_print, progress_advance.
  destruct (page_body w p st) as [[[]|ex] st']; [reflexivity|].
  destruct (render w _) as [[]|e]; reflexivity.
Qed.

Lemma page_body_fs (st : state) :
  fs (snd (page_body w p st)) = export_effect w p (fs st).
Proof.
  unfold export_effect, page_writes.
  destruct (fetch_page_text w p) as [[latest text]|ex] eqn:Hfetch.
  2: { now rewrite (page_body_fetch_raises st ex Hfetch). }
  rewrite (page_body_fetch_ok st latest text Hfetch).
  destruct text as [|s|d|l].
  - unfold write_page, bind, lift. reflexivity.
  - rewrite write_page_str. break_match; reflexivity.
  - rewrite (write_page_not_str latest (XDict d) _ st eq_refl) by discriminate.
    destruct (render w _); reflexivity.
  - rewrite (write_page_not_str latest (XList l) _ st eq_refl) by discriminate.
    destruct (render w _); reflexivity.
Qed.

Lemma process_page_fs (st : state) :
  fs (snd (process_page w p st)) = export_effect w p (fs st).
Proof.
  rewrite <- page_body_fs, process_page_of_body.
  destruct (page_body w p st) as [[[]|ex] st']; [reflexivity|].
  destruct (render w _); reflexivity.
Qed.

Lemma page_writes_free (m : gmap string node) (k : string) :
  In k (map fst (page_writes w p m)) -> m !! k <> Some Dir.
Proof.
  unfold page_writes. intros Hin Hdir. revert Hin.
  break_match; cbn [In map fst]; intros Hin;
    repeat (destruct Hin as [<-|Hin]; [congruence|]); destruct Hin.
Qed.

Lemma page_writes_names (m : gmap string node) (k : string) :
  In k (map fst (page_writes w p m)) ->
  k = text_file_name_of w p \/ k = meta_file_name_of w p.
Proof.
  unfold page_writes.
  break_match; cbn [In map fst]; intros Hin;
    repeat (destruct Hin as [<-|Hin]; [tauto|]); destruct Hin.
Qed.

Lemma match_dir_ext (m m' : gmap string node) :
  (forall k, m !! k = Some Dir <-> m' !! k = Some Dir) ->
  forall k (A : Type) (x y : A),
    match m !! k with Some Dir => x | _ => y end =
    match m' !! k with Some Dir => x | _ => y end.
Proof.
  intros Hext k A x y. specialize (Hext k).
  destruct (m !! k) as [[?|]|], (m' !! k) as [[?|]|]; try reflexivity;
    exfalso; destruct Hext as [H1 H2];
    (discriminate (H1 eq_refl) || discriminate (H2 eq_refl)).
Qed.

Lemma page_writes_dir_ext (m m' : gmap string node) :
  (forall k, m !! k = Some Dir <-> m' !! k = Some Dir) ->
  page_writes w p m = page_writes w p m'.
Proof.
  intros Hext. pose proof (match_dir_ext m m' Hext) as Hsame. unfold page_writes.
  destruct (fetch_page_text w p) as [[latest text]|ex]; [|reflexivity].
  destruct text as [|s|d|l]; try reflexivity.
  destruct (render w _) as [[]|e]; [|reflexivity].
  destruct (open_name w (text_file_name_of w p)) as [[]|e]; [|reflexivity].
  transitivity
    (match m !! text_file_name_of w p with
     | Some Dir => []
     | _ => (text_file_name_of w p, s) ::
            match latest with
            | [] => []
            | latest0 :: _ =>
                match open_name w (meta_file_name_of w p) with
                | Ok _ =>
                    match m !! meta_file_name_of w p with
                    | Some Dir => []
                    | _ => [(meta_file_name_of w p,
                             String.concat char_nl (meta_of latest0))]
                    end
                | Raise _ => []
                end
            end
     end).
  { break_match; reflexivity. }
  rewrite (Hsame (text_file_name_of w p)).
  destruct latest as [|latest0 rest]; [break_match; reflexivity|].
  destruct (open_name w (meta_file_name_of w p)) as [[]|e].
  - rewrite (Hsame (meta_file_name_of w p)). break_match; reflexivity.
  - break_match; reflexivity.
Qed.

Lemma export_effect_dir (m : gmap string node) (k : string) :
  export_effect w p m !! k = Some Dir <-> m !! k = Some Dir.
Proof.
  unfold export_effect. apply apply_writes_dir. intros k0. apply page_writes_free.
Qed.

Lemma export_effect_idempotent (m : gmap string node) :
  export_effect w p (export_effect w p m) = export_effect w p m.
Proof.
  unfold export_effect at 1.
  rewrite (page_writes_dir_ext (export_effect w p m) m) by apply export_effect_dir.
  unfold export_effect. apply apply_writes_twice.
Qed.

(** C9. The export of a page is idempotent: a second turn on the same page,
    with the same remote data, leaves the target directory exactly as the
    first one left it. *)
Theorem export_page_idempotent (st : state) :
  fs (snd (process_page w p (snd (process_page w p st)))) =
  fs (snd (process_page w p st)).
Proof.
  rewrite !process_page_fs. apply export_effect_idempotent.
Qed.

End PageExport.

(** ** The files of a page *)

Section PageFiles.

Variables (w : world) (p : page).

(** What [fetch_page_text] returns is the list [latest] of the greatest
    timestamp, which is not empty. *)
Lemma fetch_page_text_inv (latest : list transcript) (text : xval) :
  fetch_page_text w p = Ok (latest, text) ->
  exists max_ts primary rest,
    max_ts_of (transcripts p) = Ok max_ts /\
    latest = latest_of max_ts (transcripts p) /\
    latest = primary :: rest.
Proof.
  unfold fetch_page_text.
  destruct (max_ts_of (transcripts p)) as [m|e]; simpl; [|discriminate].
  destruct (fromtimestamp w m) as [[]|e]; simpl; [|discriminate].
  destruct (latest_of m (transcripts p)) as [|primary rest] eqn:Hl; simpl; [discriminate|].
  destruct (get_text_from_transcript w (url primary)) as [t|e]; simpl; [|discriminate].
  intros H. exists m, primary, rest. split; [reflexivity|].
  destruct (is_none t); simpl in H.
  - destruct (item0 (o_latest_of primary (transcripts p))) as [o|e]; simpl in H; [|discriminate].
    destruct (get_text_from_transcript w (url o)) as [t'|e]; simpl in H; [|discriminate].
    injection H as <- _. now split.
  - injection H as <- _. now split.
Qed.


(** X24. When the first fetch finds no text and no version has another
    timestamp, [o_latest] is empty and [o_latest[0]] raises: the body ends
    in [IndexError] with the target directory as it was, and the page is
    printed as an error when that line can be rendered. *)
Lemma no_fallback_page_fails (st : state) (max_ts : Z) (primary : transcript) :
  max_ts_of (transcripts p) = Ok max_ts ->
  fromtimestamp w max_ts = Ok tt ->
  item0 (latest_of max_ts (transcripts p)) = Ok primary ->
  get_text_from_transcript w (url primary) = Ok XNone ->
  o_latest_of primary (transcripts p) = [] ->
  render w (ErrorProcessing p IndexError) = Ok tt ->
  process_page w p st =
  (Ok tt, mkState (fs st) (console st ++ [ErrorProcessing p IndexError]) (S (advanced st))).
Proof.
  intros Hmax Hdate Hprim Hnone Hnil Hrender.
  rewrite process_page_of_body.
  rewrite (page_body_fetch_raises w p st IndexError); [now rewrite Hrender|].
  unfold fetch_page_text. rewrite Hmax. simpl. rewrite Hdate. simpl.
  rewrite Hprim. simpl. rewrite Hnone. simpl. now rewrite Hnil.
Qed.

Lemma lookup_text_after_writes (m : gmap string node) (latest : list transcript)
      (s : string) :
  fetch_page_text w p = Ok (latest, XStr s) ->
  render w (Writing (text_file_name_of w p) (String.length s)) = Ok tt ->
  open_name w (text_file_name_of w p) = Ok tt ->
  m !! text_file_name_of w p <> Some Dir ->
  export_effect w p m !! text_file_name_of w p = Some (File s).
Proof.
  intros Hfetch Hrender Hopen Hfree. pose proof (text_meta_names_differ w p) as Hne.
  unfold export_effect, page_writes. rewrite Hfetch, Hrender, Hopen.
  destruct (m !! text_file_name_of w p) as [[data|]|]; try congruence;
    (destruct latest as [|latest0 rest]; [apply lookup_insert_eq|]);
    break_match; unfold apply_writes; simpl;
    try apply lookup_insert_eq;
    (rewrite lookup_insert_ne by congruence; apply lookup_insert_eq).
Qed.

(** X25. When both the first fetch and the fetch of an existing fallback
    find no text, and the line can be printed and the file opened, the
    text file is written, and it is empty. *)
Lemma empty_text_written_with_fallback (st : state) (max_ts : Z)
      (primary fallback : transcript) :
  max_ts_of (transcripts p) = Ok max_ts ->
  fromtimestamp w max_ts = Ok tt ->
  item0 (latest_of max_ts (transcripts p)) = Ok primary ->
  get_text_from_transcript w (url primary) = Ok XNone ->
  item0 (o_latest_of primary (transcripts p)) = Ok fallback ->
  get_text_from_transcript w (url fallback) = Ok XNone ->
  render w (Writing (text_file_name_of w p) 0) = Ok tt ->
  open_name w (text_file_name_of w p) = Ok tt ->
  fs st !! text_file_name_of w p <> Some Dir ->
  fs (snd (process_page w p st)) !! text_file_name_of w p = Some (File "").
Proof.
  intros Hmax Hdate Hprim Hnone Hfb Hnone' Hrender Hopen Hfree.
  rewrite process_page_fs.
  apply (lookup_text_after_writes (fs st) (latest_of max_ts (transcripts p)) "");
    try assumption.
  unfold fetch_page_text. rewrite Hmax. simpl. rewrite Hdate. simpl.
  rewrite Hprim. simpl. rewrite Hnone. simpl. rewrite Hfb. simpl.
  now rewrite Hnone'.
Qed.


End PageFiles.

(** C10. A page whose metadata name is taken by a directory and whose
    version has the status [[/b]]: the text file is written, the write of
    the metadata file raises, and the print of the page in the [except]
    clause raises [MarkupError]; the turn ends with that exception, the
    text file in place and no error line for the page. *)
Theorem meta_failure_goes_unreported :
  page_body world_demo page_tagged st_meta_dir =
    (Raise (IsADirectoryError "img001-meta.txt"),
     mkState (<["img001.txt" := File "fallback text"]> (fs st_meta_dir))
             [Writing "img001.txt" 13] 0) /\
  render world_demo (ErrorProcessing page_tagged (IsADirectoryError "img001-meta.txt")) =
    Raise MarkupError /\
  process_page world_demo page_tagged st_meta_dir =
    (Raise MarkupError,
     mkState (<["img001.txt" := File "fallback text"]> (fs st_meta_dir))
             [Writing "img001.txt" 13] 0).
Proof. repeat split; reflexivity. Qed.

(** ** Pages without version, and pages without fallback *)

(** C5. A page whose list of versions is empty writes no file and ends in
    the error branch: [max] raises [ValueError] on the empty list, the
    [except] clause takes it, and the page is printed as an error when that
    line can be rendered. *)
Theorem empty_page_reports_error (w : world) (name : string) (st : state) :
  page_body w (mkPage name []) st = (Raise ValueError, st) /\
  fs (snd (process_page w (mkPage name []) st)) = fs st /\
  fst (exportPage w (mkPage name []) st) = Errored ValueError /\
  (render w (ErrorProcessing (mkPage name []) ValueError) = Ok tt ->
   process_page w (mkPage name []) st =
     (Ok tt,
      mkState (fs st)
              (console st ++ [ErrorProcessing (mkPage name []) ValueError])
              (S (advanced st)))).
Proof.
  assert (page_body w (mkPage name []) st = (Raise ValueError, st)) as Hbody
    by reflexivity.
  split; [exact Hbody|]. split; [|split].
  - rewrite process_page_of_body, Hbody.
    destruct (render w _); reflexivity.
  - unfold exportPage. now rewrite Hbody.
  - intros Hrender. now rewrite process_page_of_body, Hbody, Hrender.
Qed.

(** C5, as stated: the outcome of a page without version is not
    [Skipped "no transcripts"]; it is the error of [max]. *)
Lemma empty_page_is_not_skipped :
  fst (exportPage world_demo page_no_version st0) <> Skipped "no transcripts" /\
  fst (exportPage world_demo page_no_version st0) = Errored ValueError /\
  console (snd (exportPage world_demo page_no_version st0)) =
    [ErrorProcessing page_no_version ValueError].
Proof. split; [discriminate|]. split; reflexivity. Qed.

Lemma o_latest_of_same_timestamps (t0 : transcript) (ts : list transcript) :
  (forall t, In t ts -> timestamp t = timestamp t0) ->
  o_latest_of t0 ts = [].
Proof.
  intros Hsame. unfold o_latest_of.
  induction ts as [|t ts IH]; simpl; [reflexivity|].
  rewrite (Hsame t) by (simpl; tauto). rewrite Z.eqb_refl. simpl.
  apply IH. intros t' Ht'. apply Hsame. simpl. tauto.
Qed.

(** C2. Two versions with the same timestamp, and a first fetch that finds
    no text: no fallback exists, [o_latest[0]] raises [IndexError], the page
    is reported as an error and no text file is written. *)
Theorem same_timestamp_page_fails :
  o_latest_of version_B100 (transcripts page_same_timestamp) = [] /\
  get_text_from_transcript world_demo (url version_B100) = Ok XNone /\
  process_page world_demo page_same_timestamp st0 =
    (Ok tt, mkState ∅ [ErrorProcessing page_same_timestamp IndexError] 1) /\
  fst (exportPage world_demo page_same_timestamp st0) = Errored IndexError.
Proof. repeat split; reflexivity. Qed.

(** C3. A page with one version whose fetch finds no text: no text file is
    written, the page ends in the [IndexError] of [o_latest[0]]. *)
Theorem single_version_without_text_fails :
  get_text_from_transcript world_demo (url version_B100) = Ok XNone /\
  fs (snd (process_page world_demo page_one_version st0)) !! "img003.txt" = None /\
  console (snd (process_page world_demo page_one_version st0)) =
    [ErrorProcessing page_one_version IndexError].
Proof. repeat split; reflexivity. Qed.

(** ** The run over the pages *)

Section Run.

Variable w : world.

Lemma process_pages_cons (p : page) (rest : list page) (st : state) :
  process_pages w (p :: rest) st =
  match process_page w p st with
  | (Ok _, st1) => process_pages w rest st1
  | (Raise ex, st1) => (Raise ex, st1)
  end.
Proof. reflexivity. Qed.

Lemma process_pages_app (pre post : list page) (st : state) :
  process_pages w (pre ++ post) st =
  match process_pages w pre st with
  | (Ok _, st1) => process_pages w post st1
  | (Raise ex, st1) => (Raise ex, st1)
  end.
Proof.
  revert st. induction pre as [|p pre IH]; intros st; [reflexivity|].
  rewrite <- app_comm_cons, !process_pages_cons.
  destruct (process_page w p st) as [[[]|ex] st1]; [apply IH|reflexivity].
Qed.

(** The body of a page only adds lines to the console, and leaves the
    progress bar alone. *)
Lemma page_body_frame (p : page) (st : state) :
  advanced (snd (page_body w p st)) = advanced st /\
  exists evs, console (snd (page_body w p st)) = console st ++ evs.
Proof.
  assert (forall c : list event, exists evs, c = c ++ evs) as Hnil
    by (intros c; exists []; now rewrite app_nil_r).
  destruct (fetch_page_text w p) as [[latest text]|ex] eqn:Hfetch.
  2: { rewrite (page_body_fetch_raises w p st ex Hfetch). split; [reflexivity|apply Hnil]. }
  rewrite (page_body_fetch_ok w p st latest text Hfetch).
  destruct text as [|s|d|l].
  - unfold write_page, bind, lift. simpl. split; [reflexivity|apply Hnil].
  - rewrite write_page_str.
    break_match; (split; [reflexivity|]); try apply Hnil; eexists; reflexivity.
  - rewrite (write_page_not_str w p latest (XDict d) _ st eq_refl) by discriminate.
    destruct (render w _); (split; [reflexivity|]); try apply Hnil; eexists; reflexivity.
  - rewrite (write_page_not_str w p latest (XList l) _ st eq_refl) by discriminate.
    destruct (render w _); (split; [reflexivity|]); try apply Hnil; eexists; reflexivity.
Qed.

Lemma process_page_frame (p : page) (st : state) :
  (fst (process_page w p st) = Ok tt ->
   advanced (snd (process_page w p st)) = S (advanced st)) /\
  exists evs, console (snd (process_page w p st)) = console st ++ evs.
Proof.
  rewrite process_page_of_body.
  destruct (page_body_frame p st) as [Hadv [evs Hevs]].
  destruct (page_body w p st) as [[[]|ex] st1]; simpl in *.
  - split; [congruence|]. now exists evs.
  - destruct (render w _) as [[]|e]; simpl.
    + split; [congruence|]. exists (evs ++ [ErrorProcessing p ex]).
      now rewrite Hevs, app_assoc.
    + split; [discriminate|]. now exists evs.
Qed.

(** A run that raises nothing has advanced the progress bar once per page;
    any run only adds lines to the console. *)
Lemma process_pages_frame (pages : list page) (st : state) :
  (fst (process_pages w pages st) = Ok tt ->
   advanced (snd (process_pages w pages st)) = (advanced st + List.length pages)%nat) /\
  exists evs, console (snd (process_pages w pages st)) = console st ++ evs.
Proof.
  revert st. induction pages as [|p pages IH]; intros st.
  - simpl. split; [lia|]. exists []. now rewrite app_nil_r.
  - rewrite process_pages_cons.
    destruct (process_page_frame p st) as (Hadv1 & evs1 & Hevs1).
    destruct (process_page w p st) as [[[]|ex] st1]; simpl in *.
    + destruct (IH st1) as (Hadv & evs & Hevs). split.
      * intros Hok. rewrite (Hadv Hok), (Hadv1 eq_refl). lia.
      * exists (evs1 ++ evs). now rewrite Hevs, Hevs1, app_assoc.
    + split; [discriminate|]. now exists evs1.
Qed.

(** X26. When the pages before it raised nothing, the body of a page
    raises, and the line that reports it can be rendered, the exception is
    printed with the page and the loop goes on with the pages that follow,
    from the state the failed page left. *)
Theorem page_errors_are_contained (pre post : list page) (p : page)
        (st st1 : state) (ex : exn) :
  fst (process_pages w pre st) = Ok tt ->
  page_body w p (snd (process_pages w pre st)) = (Raise ex, st1) ->
  render w (ErrorProcessing p ex) = Ok tt ->
  process_pages w (pre ++ p :: post) st =
    process_pages w post
      (mkState (fs st1) (console st1 ++ [ErrorProcessing p ex]) (S (advanced st1))).
Proof.
  intros Hpre Hbody Hrender.
  rewrite process_pages_app.
  destruct (process_pages w pre st) as [[[]|e] st0]; cbn [fst snd] in *; [|discriminate].
  now rewrite process_pages_cons, process_page_of_body, Hbody, Hrender.
Qed.

(** When the line that reports a page cannot be rendered, the exception of
    the print ends the run at that page: the pages that follow get no
    turn. *)
Lemma report_failure_stops_run (pre post : list page) (p : page)
      (st st1 : state) (ex ex' : exn) :
  fst (process_pages w pre st) = Ok tt ->
  page_body w p (snd (process_pages w pre st)) = (Raise ex, st1) ->
  render w (ErrorProcessing p ex) = Raise ex' ->
  process_pages w (pre ++ p :: post) st = (Raise ex', st1).
Proof.
  intros Hpre Hbody Hrender.
  rewrite process_pages_app.
  destruct (process_pages w pre st) as [[[]|e] st0]; cbn [fst snd] in *; [|discriminate].
  now rewrite process_pages_cons, process_page_of_body, Hbody, Hrender.
Qed.

Lemma page_body_result_ext (p : page) (st st' : state) :
  (forall k, fs st !! k = Some Dir <-> fs st' !! k = Some Dir) ->
  fst (page_body w p st) = fst (page_body w p st').
Proof.
  intros Hext.
  destruct (fetch_page_text w p) as [[latest text]|ex] eqn:Hfetch.
  2: { now rewrite !(page_body_fetch_raises w p _ ex Hfetch). }
  rewrite !(page_body_fetch_ok w p _ latest text Hfetch).
  destruct text as [|s|d|l].
  - reflexivity.
  - rewrite !write_page_str.
    destruct (Hext (text_file_name_of w p)) as [Ht1 Ht2].
    destruct (Hext (meta_file_name_of w p)) as [Hm1 Hm2].
    destruct (render w _) as [[]|e]; [|reflexivity].
    destruct (open_name w (text_file_name_of w p)) as [[]|e]; [|reflexivity].
    destruct (fs st !! text_file_name_of w p) as [[?|]|],
             (fs st' !! text_file_name_of w p) as [[?|]|];
      try reflexivity;
      try (exfalso; (discriminate (Ht1 eq_refl) || discriminate (Ht2 eq_refl)));
      cbv zeta;
      (destruct latest as [|latest0 rest]; [reflexivity|]);
      (destruct (open_name w (meta_file_name_of w p)) as [[]|e]; [|reflexivity]);
      destruct (fs st !! meta_file_name_of w p) as [[?|]|],
               (fs st' !! meta_file_name_of w p) as [[?|]|];
      try reflexivity;
      exfalso; (discriminate (Hm1 eq_refl) || discriminate (Hm2 eq_refl)).
  - rewrite !(write_page_not_str w p latest (XDict d) _ _ eq_refl) by discriminate.
    destruct (render w _); reflexivity.
  - rewrite !(write_page_not_str w p latest (XList l) _ _ eq_refl) by discriminate.
    destruct (render w _); reflexivity.
Qed.

Lemma process_page_result_ext (p : page) (st st' : state) :
  (forall k, fs st !! k = Some Dir <-> fs st' !! k = Some Dir) ->
  fst (process_page w p st) = fst (process_page w p st').
Proof.
  intros Hext. rewrite !process_page_of_body.
  pose proof (page_body_result_ext p st st' Hext) as Hbody.
  destruct (page_body w p st) as [[[]|ex] st1], (page_body w p st') as [[[]|ex'] st1'];
    simpl in Hbody; try discriminate; [reflexivity|].
  injection Hbody as <-. destruct (render w _) as [[]|e]; reflexivity.
Qed.

Lemma turn_result_dir_ext (p : page) (m m' : gmap string node) :
  (forall k, m !! k = Some Dir <-> m' !! k = Some Dir) ->
  turn_result w p m = turn_result w p m'.
Proof. intros Hext. unfold turn_result. now apply process_page_result_ext. Qed.

Lemma run_writes_dir_ext (pages : list page) (m m' : gmap string node) :
  (forall k, m !! k = Some Dir <-> m' !! k = Some Dir) ->
  run_writes w pages m = run_writes w pages m'.
Proof.
  intros Hext. induction pages as [|p pages IH]; [reflexivity|].
  simpl. rewrite (page_writes_dir_ext w p m m' Hext), (turn_result_dir_ext p m m' Hext), IH.
  reflexivity.
Qed.

Lemma run_writes_from (pages : list page) (m : gmap string node) (k : string) :
  In k (map fst (run_writes w pages m)) ->
  exists p, In p pages /\ In k (map fst (page_writes w p m)).
Proof.
  induction pages as [|p pages IH]; [intros []|].
  simpl. rewrite map_app. intros Hin. apply in_app_or in Hin as [Hin|Hin].
  - exists p. tauto.
  - destruct (turn_result w p m); [|destruct Hin].
    destruct (IH Hin) as (q & Hq & Hk). exists q. tauto.
Qed.

Lemma run_writes_free (pages : list page) (m : gmap string node) (k : string) :
  In k (map fst (run_writes w pages m)) -> m !! k <> Some Dir.
Proof.
  intros Hin. destruct (run_writes_from pages m k Hin) as (p & _ & Hk).
  now apply page_writes_free in Hk.
Qed.

(** What a run leaves in the target directory. *)
Lemma process_pages_fs_from (pages : list page) (st : state) (m0 : gmap string node) :
  (forall k, fs st !! k = Some Dir <-> m0 !! k = Some Dir) ->
  fs (snd (process_pages w pages st)) = apply_writes (run_writes w pages m0) (fs st).
Proof.
  revert st. induction pages as [|p pages IH]; intros st Hext; [reflexivity|].
  rewrite process_pages_cons. cbn [run_writes]. rewrite apply_writes_app.
  assert (fst (process_page w p st) = turn_result w p m0) as Hres.
  { unfold turn_result. now apply process_page_result_ext. }
  assert (fs (snd (process_page w p st)) = apply_writes (page_writes w p m0) (fs st)) as Hfs.
  { rewrite process_page_fs. unfold export_effect.
    now rewrite (page_writes_dir_ext w p (fs st) m0 Hext). }
  destruct (process_page w p st) as [[[]|ex] st1]; simpl in Hres, Hfs; rewrite <- Hres.
  - rewrite <- Hfs. apply IH. intros k. rewrite Hfs, <- Hext.
    apply apply_writes_dir. intros k0 Hk0. rewrite Hext.
    now apply (page_writes_free w p m0).
  - simpl. now rewrite Hfs.
Qed.

Lemma process_pages_fs (pages : list page) (st : state) :
  fs (snd (process_pages w pages st)) = apply_writes (run_writes w pages (fs st)) (fs st).
Proof. now apply process_pages_fs_from. Qed.

(** X1. Running the loop a second time over the same pages, with the same
    remote data, leaves the target directory as the first run left it, also
    when several pages share file names. *)
Theorem run_is_idempotent (pages : list page) (st : state) :
  fs (snd (process_pages w pages (snd (process_pages w pages st)))) =
  fs (snd (process_pages w pages st)).
Proof.
  rewrite (process_pages_fs_from pages (snd (process_pages w pages st)) (fs st)).
  - rewrite process_pages_fs. apply apply_writes_twice.
  - intros k. rewrite process_pages_fs. apply apply_writes_dir.
    intros k0. apply run_writes_free.
Qed.

(** X2. A run changes no entry of the target directory other than the text
    file and the metadata file of the pages it is given. *)
Theorem run_touches_only_page_files (pages : list page) (st : state) (k : string) :
  (forall p, In p pages -> k <> text_file_name_of w p /\ k <> meta_file_name_of w p) ->
  fs (snd (process_pages w pages st)) !! k = fs st !! k.
Proof.
  intros Hother. rewrite process_pages_fs.
  apply apply_writes_other. intros Hin.
  destruct (run_writes_from pages (fs st) k Hin) as (p & Hp & Hk).
  apply page_writes_names in Hk. destruct (Hother p Hp). tauto.
Qed.

(** X3. Every entry of the target directory is, after a run, either what it
    was before or a file written where no directory stood: the run removes
    nothing, and neither creates nor replaces a directory. *)
Theorem run_only_writes_files (pages : list page) (st : state) (k : string) :
  fs (snd (process_pages w pages st)) !! k = fs st !! k \/
  exists data,
    fs (snd (process_pages w pages st)) !! k = Some (File data) /\
    fs st !! k <> Some Dir.
Proof.
  rewrite process_pages_fs.
  set (ws := run_writes w pages (fs st)).
  destruct (in_dec string_dec k (map fst ws)) as [Hin|Hnot].
  - right. destruct (apply_writes_file ws (fs st) k Hin) as [c Hc].
    exists c. split; [assumption|]. now apply (run_writes_free pages (fs st)).
  - left. now apply apply_writes_other.
Qed.

End Run.

(** C8. A page named [a[/b].jpg] without version, followed by a page that
    can be exported: [max] raises in the body of the first page, the print
    of the page in the [except] clause raises [MarkupError], and that
    exception ends the run; the second page, which alone would have been
    exported, gets no turn. *)
Theorem report_failure_aborts_run :
  page_body world_demo page_bracket st0 = (Raise ValueError, st0) /\
  render world_demo (ErrorProcessing page_bracket ValueError) = Raise MarkupError /\
  process_pages world_demo [page_bracket; page_two_versions] st0 = (Raise MarkupError, st0) /\
  fs (snd (process_pages world_demo [page_two_versions] st0)) !! "img001.txt" =
    Some (File "fallback text").
Proof. repeat split; reflexivity. Qed.

(** * Further properties of the page loop *)

(** ** The text a turn writes *)

Section PageText.

Variables (w : world) (p : page).

Lemma fetch_page_text_primary (max_ts : Z) (primary : transcript) (t : xval) :
  max_ts_of (transcripts p) = Ok max_ts ->
  fromtimestamp w max_ts = Ok tt ->
  item0 (latest_of max_ts (transcripts p)) = Ok primary ->
  get_text_from_transcript w (url primary) = Ok t ->
  is_none t = false ->
  fetch_page_text w p = Ok (latest_of max_ts (transcripts p), t).
Proof.
  intros Hmax Hdate Hprim Htext Hsome. unfold fetch_page_text.
  rewrite Hmax. simpl. rewrite Hdate. simpl. rewrite Hprim. simpl.
  rewrite Htext. simpl. rewrite Hsome. simpl. now rewrite Hsome.
Qed.





(** X6. The fallback is for a missing text only: when the fetch of the
    version of the greatest timestamp raises, the body of the page ends
    with that exception, whatever the other versions hold, and the target
    directory is left as it was; the page is printed with the exception
    when that line can be rendered. *)
Theorem fetch_error_skips_fallback (st : state) (max_ts : Z) (primary : transcript)
        (ex : exn) :
  max_ts_of (transcripts p) = Ok max_ts ->
  fromtimestamp w max_ts = Ok tt ->
  item0 (latest_of max_ts (transcripts p)) = Ok primary ->
  get_text_from_transcript w (url primary) = Raise ex ->
  page_body w p st = (Raise ex, st) /\
  fs (snd (process_page w p st)) = fs st /\
  (render w (ErrorProcessing p ex) = Ok tt ->
   process_page w p st =
   (Ok tt, mkState (fs st) (console st ++ [ErrorProcessing p ex]) (S (advanced st)))).
Proof.
  intros Hmax Hdate Hprim Hraise.
  assert (page_body w p st = (Raise ex, st)) as Hbody.
  { apply page_body_fetch_raises.
    unfold fetch_page_text. rewrite Hmax. simpl. rewrite Hdate. simpl.
    rewrite Hprim. simpl. now rewrite Hraise. }
  split; [exact Hbody|]. rewrite process_page_of_body, Hbody. split.
  - destruct (render w _); reflexivity.
  - now intros ->.
Qed.

(** X7. A recognized text that is not a plain string (a [Unicode] element
    with attributes comes as a dict, a repeated one as a list) is announced
    on the console with its length when that line can be printed, then
    refused by [write_text]: the body ends in [TypeError] and no file is
    written; the page is printed with [TypeError] when that line can be
    rendered. *)
Theorem structured_text_is_not_written (st : state) (max_ts : Z) (primary : transcript)
        (t : xval) (n : nat) :
  max_ts_of (transcripts p) = Ok max_ts ->
  fromtimestamp w max_ts = Ok tt ->
  item0 (latest_of max_ts (transcripts p)) = Ok primary ->
  get_text_from_transcript w (url primary) = Ok t ->
  py_len t = Ok n ->
  (forall s, t <> XStr s) ->
  render w (Writing (text_file_name_of w p) n) = Ok tt ->
  page_body w p st =
    (Raise TypeError,
     mkState (fs st) (console st ++ [Writing (text_file_name_of w p) n]) (advanced st)) /\
  fs (snd (process_page w p st)) = fs st /\
  (render w (ErrorProcessing p TypeError) = Ok tt ->
   process_page w p st =
   (Ok tt,
    mkState (fs st)
            (console st ++ [Writing (text_file_name_of w p) n; ErrorProcessing p TypeError])
            (S (advanced st)))).
Proof.
  intros Hmax Hdate Hprim Htext Hlen Hnostr Hrender.
  assert (is_none t = false) as Hsome.
  { destruct t; try reflexivity. discriminate. }
  assert (page_body w p st =
    (Raise TypeError,
     mkState (fs st) (console st ++ [Writing (text_file_name_of w p) n]) (advanced st)))
    as Hbody.
  { rewrite (page_body_fetch_ok w p st _ _
               (fetch_page_text_primary max_ts primary t Hmax Hdate Hprim Htext Hsome)).
    now rewrite (write_page_not_str w p _ t n st Hlen Hnostr), Hrender. }
  split; [exact Hbody|]. rewrite process_page_of_body, Hbody. split.
  - destruct (render w (ErrorProcessing p TypeError)); reflexivity.
  - intros ->. simpl. now rewrite <- app_assoc.
Qed.

(** X8. The date of the greatest timestamp is computed for a debug line
    only, yet when that computation raises the body of the page ends with
    its exception before any fetch, and the target directory is left as it
    was; the page is printed with the exception when that line can be
    rendered. *)
Theorem bad_timestamp_fails_page (st : state) (max_ts : Z) (ex : exn) :
  max_ts_of (transcripts p) = Ok max_ts ->
  fromtimestamp w max_ts = Raise ex ->
  page_body w p st = (Raise ex, st) /\
  fs (snd (process_page w p st)) = fs st /\
  (render w (ErrorProcessing p ex) = Ok tt ->
   process_page w p st =
   (Ok tt, mkState (fs st) (console st ++ [ErrorProcessing p ex]) (S (advanced st)))).
Proof.
  intros Hmax Hdate.
  assert (page_body w p st = (Raise ex, st)) as Hbody.
  { apply page_body_fetch_raises.
    unfold fetch_page_text. rewrite Hmax. simpl. now rewrite Hdate. }
  split; [exact Hbody|]. rewrite process_page_of_body, Hbody. split.
  - destruct (render w _); reflexivity.
  - now intros ->.
Qed.

(** X9. A turn whose body runs to its end has printed exactly one line,
    [Writing] with the name of the text file and the length of the text,
    and the text file holds a string that the selection and the fetches
    produced. *)
Theorem successful_turn_writes_text (st st' : state) :
  page_body w p st = (Ok tt, st') ->
  exists latest s,
    fetch_page_text w p = Ok (latest, XStr s) /\
    fs st' !! text_file_name_of w p = Some (File s) /\
    console st' = console st ++ [Writing (text_file_name_of w p) (String.length s)] /\
    advanced st' = advanced st.
Proof.
  intros Hbody. pose proof (text_meta_names_differ w p) as Hne.
  destruct (fetch_page_text w p) as [[latest text]|ex] eqn:Hfetch.
  2: { rewrite (page_body_fetch_raises w p st ex Hfetch) in Hbody. discriminate. }
  rewrite (page_body_fetch_ok w p st latest text Hfetch) in Hbody.
  destruct (write_page_ok_inv w p latest text st st' Hbody) as (s & -> & _ & ->).
  exists latest, s. split; [reflexivity|]. simpl. split; [|split; reflexivity].
  destruct latest as [|latest0 rest]; [apply lookup_insert_eq|].
  rewrite lookup_insert_ne by congruence. apply lookup_insert_eq.
Qed.

End PageText.
(** ** The fallback version *)

Section Fallback.

Variables (ts : list transcript) (max_ts : Z) (primary : transcript).
Hypothesis Hmax : max_ts_of ts = Ok max_ts.
Hypothesis Hprimary : item0 (latest_of max_ts ts) = Ok primary.

Lemma max_ts_upper (t : transcript) : In t ts -> timestamp t <= max_ts.
Proof.
  intros Hin. destruct (py_max_spec (map timestamp ts)) as (m & Hm & _ & Hub).
  { destruct ts; [destruct Hin | discriminate]. }
  unfold max_ts_of in Hmax. rewrite Hmax in Hm. injection Hm as <-.
  apply Hub. now apply in_map.
Qed.

Lemma primary_timestamp : timestamp primary = max_ts.
Proof.
  destruct (latest_of max_ts ts) as [|x rest] eqn:Hl; [discriminate|].
  injection Hprimary as ->.
  assert (In primary (latest_of max_ts ts)) as Hin by (rewrite Hl; simpl; tauto).
  apply filter_In in Hin as [_ Heq]. apply Z.eqb_eq in Heq. congruence.
Qed.

(** X10. The fallback is the first version, in list order, whose timestamp
    is not the greatest one: it is older than the primary, every version
    listed before it has the greatest timestamp, and how recent it is among
    the older versions plays no part. *)
Theorem fallback_is_first_older (fallback : transcript) :
  item0 (o_latest_of primary ts) = Ok fallback ->
  timestamp fallback < timestamp primary /\
  exists pre post,
    ts = pre ++ fallback :: post /\
    forall t, In t pre -> timestamp t = timestamp primary.
Proof.
  intros Hfb. unfold o_latest_of in Hfb.
  destruct (List.filter (fun x => negb (timestamp primary =? timestamp x)) ts)
    as [|x rest] eqn:Hf; [discriminate|].
  injection Hfb as ->.
  destruct (filter_head_split _ _ _ _ Hf) as (pre & post & Hts & Hx & Hpre).
  apply negb_true_iff, Z.eqb_neq in Hx.
  assert (timestamp fallback <= max_ts) as Hle.
  { apply max_ts_upper. rewrite Hts. apply in_or_app. simpl. tauto. }
  rewrite primary_timestamp in *. split; [lia|].
  exists pre, post. split; [assumption|].
  intros t Ht. specialize (Hpre t Ht). apply negb_false_iff, Z.eqb_eq in Hpre.
  congruence.
Qed.

(** X11. There is no fallback exactly when all versions of the page have
    the same timestamp. *)
Theorem no_fallback_iff_one_timestamp :
  o_latest_of primary ts = [] <-> forall t, In t ts -> timestamp t = max_ts.
Proof.
  rewrite <- primary_timestamp. split.
  - intros Hnil t Ht.
    destruct (Z.eq_dec (timestamp primary) (timestamp t)) as [Heq|Hne]; [congruence|].
    assert (In t (o_latest_of primary ts)) as Hin.
    { apply filter_In. split; [assumption|]. now apply negb_true_iff, Z.eqb_neq. }
    rewrite Hnil in Hin. destruct Hin.
  - intros Hsame. now apply o_latest_of_same_timestamps.
Qed.

End Fallback.

(** ** What the extraction of the text returns and raises *)

Section ParsedText.

Lemma rbind_ok {A B} (r : result A) (k : A -> result B) (b : B) :
  rbind r k = Ok b -> exists a, r = Ok a /\ k a = Ok b.
Proof. destruct r as [a|e]; simpl; [eauto|discriminate]. Qed.

Lemma rbind_raise {A B} (r : result A) (k : A -> result B) (e : exn) :
  rbind r k = Raise e -> r = Raise e \/ exists a, r = Ok a /\ k a = Raise e.
Proof. destruct r as [a|e']; simpl; [eauto|]. intros [= ->]. now left. Qed.

Lemma py_getitem_ok (v : xval) (k : string) (x : xval) :
  py_getitem v k = Ok x -> exists d, v = XDict d /\ dict_get k d = Some x.
Proof.
  destruct v as [|s|d|l]; simpl; try discriminate.
  destruct (dict_get k d) as [y|] eqn:Hd; [|discriminate].
  intros [= ->]. eauto.
Qed.

Lemma py_getitem_raise (v : xval) (k : string) (e : exn) :
  py_getitem v k = Raise e -> e = TypeError \/ e = KeyError k.
Proof.
  destruct v as [|s|d|l]; simpl; try (intros [= <-]; tauto).
  destruct (dict_get k d); [discriminate|]. intros [= <-]. tauto.
Qed.

Lemma py_getitem_after_in (v : xval) (k : string) (e : exn) :
  py_in k v = Ok true -> py_getitem v k = Raise e -> e = TypeError.
Proof.
  destruct v as [|s|d|l]; simpl; try (intros _ [= <-]; reflexivity).
  destruct (dict_get k d); [discriminate|]. discriminate.
Qed.

Lemma py_in_raise (v : xval) (k : string) (e : exn) :
  py_in k v = Raise e -> e = TypeError.
Proof. destruct v; simpl; try discriminate. now intros [= <-]. Qed.

Variable tmp : xval.

(** X12. A text returned by the extraction is the value found under
    [PcGts], [Page], [TextRegion], [TextEquiv], [Unicode], each level being
    a dict: no other place of the document is read for it. *)
Theorem text_of_parsed_sound (u : xval) :
  text_of_parsed tmp = Ok u ->
  u <> XNone ->
  exists top root pg tr te,
    tmp = XDict top /\
    dict_get "PcGts" top = Some (XDict root) /\
    dict_get "Page" root = Some (XDict pg) /\
    dict_get "TextRegion" pg = Some (XDict tr) /\
    dict_get "TextEquiv" tr = Some (XDict te) /\
    dict_get "Unicode" te = Some u.
Proof.
  intros Htext Hsome. unfold text_of_parsed in Htext.
  apply rbind_ok in Htext as (rootv & H1 & Htext).
  apply py_getitem_ok in H1 as (top & -> & Htop).
  apply rbind_ok in Htext as (pgv & H2 & Htext).
  apply py_getitem_ok in H2 as (root & -> & Hroot).
  apply rbind_ok in Htext as (has_tr & H3 & Htext).
  destruct has_tr; [|injection Htext as <-; congruence].
  apply rbind_ok in Htext as (trv & H4 & Htext).
  apply py_getitem_ok in H4 as (pg & -> & Hpg).
  apply rbind_ok in Htext as (has_te & H5 & Htext).
  destruct has_te; [|injection Htext as <-; congruence].
  apply rbind_ok in Htext as (tev & H6 & Htext).
  apply py_getitem_ok in H6 as (tr & -> & Htr).
  apply rbind_ok in Htext as (u0 & H7 & Htext).
  apply py_getitem_ok in H7 as (te & -> & Hte).
  destruct (negb (is_none u0)); [|injection Htext as <-; congruence].
  simpl in Htext. rewrite Htr in Htext. simpl in Htext. rewrite Hte in Htext.
  injection Htext as <-.
  exists top, root, pg, tr, te. repeat split; assumption.
Qed.

(** X13. The extraction raises [TypeError], or [KeyError] for one of the
    keys [PcGts], [Page] and [Unicode], and nothing else: a missing
    [TextRegion] or [TextEquiv] is never an error. *)
Theorem text_of_parsed_raises_only (e : exn) :
  text_of_parsed tmp = Raise e ->
  e = TypeError \/ e = KeyError "PcGts" \/ e = KeyError "Page" \/ e = KeyError "Unicode".
Proof.
  intros Htext. unfold text_of_parsed in Htext.
  apply rbind_raise in Htext as [H1|(rootv & _ & Htext)].
  { apply py_getitem_raise in H1. tauto. }
  apply rbind_raise in Htext as [H2|(pgv & _ & Htext)].
  { apply py_getitem_raise in H2. tauto. }
  apply rbind_raise in Htext as [H3|(has_tr & H3 & Htext)].
  { apply py_in_raise in H3. tauto. }
  destruct has_tr; [|discriminate].
  apply rbind_raise in Htext as [H4|(trv & _ & Htext)].
  { left. apply (py_getitem_after_in _ _ _ H3 H4). }
  apply rbind_raise in Htext as [H5|(has_te & H5 & Htext)].
  { apply py_in_raise in H5. tauto. }
  destruct has_te; [|discriminate].
  apply rbind_raise in Htext as [H6|(tev & H6 & Htext)].
  { left. apply (py_getitem_after_in _ _ _ H5 H6). }
  apply rbind_raise in Htext as [H7|(u0 & _ & Htext)].
  { apply py_getitem_raise in H7. tauto. }
  destruct (negb (is_none u0)); [|discriminate].
  rewrite H6 in Htext. simpl in Htext.
  apply py_getitem_raise in Htext. tauto.
Qed.

End ParsedText.

(** ** The lookup of a collection by name *)

Section Collections.

Variables (sv : service) (name : string) (headers : list (string * string)).

Lemma filter_colName_nil (items : list jval) :
  filter_colName name items = Ok [] ->
  forall x, In x items ->
    exists v, j_getitem x "colName" = Ok v /\ j_eq_str v name = false.
Proof.
  induction items as [|y items IH]; intros Hf x Hin; [destruct Hin|].
  cbn [filter_colName] in Hf.
  apply rbind_ok in Hf as (v & Hv & Hf). apply rbind_ok in Hf as (kept & Hk & Hf).
  destruct (j_eq_str v name) eqn:Heq; [discriminate|]. injection Hf as ->.
  destruct Hin as [<-|Hin]; [eauto|now apply IH].
Qed.

Lemma filter_colName_head (items : list jval) (c : jval) (kept : list jval) :
  filter_colName name items = Ok (c :: kept) ->
  exists pre post v,
    items = pre ++ c :: post /\
    j_getitem c "colName" = Ok v /\ j_eq_str v name = true /\
    forall x, In x pre ->
      exists v', j_getitem x "colName" = Ok v' /\ j_eq_str v' name = false.
Proof.
  induction items as [|y items IH]; intros Hf; [discriminate|].
  cbn [filter_colName] in Hf.
  apply rbind_ok in Hf as (v & Hv & Hf). apply rbind_ok in Hf as (kept' & Hk & Hf).
  destruct (j_eq_str v name) eqn:Heq.
  - injection Hf as -> ->. exists [], items, v. simpl. tauto.
  - injection Hf as ->. destruct (IH Hk) as (pre & post & v' & -> & Hc & Hn & Hpre).
    exists (y :: pre), post, v'. repeat split; try assumption.
    intros x [<-|Hin]; [eauto|now apply Hpre].
Qed.

Lemma j_eq_str_true (v : jval) : j_eq_str v name = true -> v = JStr name.
Proof.
  destruct v; simpl; try discriminate. intros H. apply String.eqb_eq in H. congruence.
Qed.

Lemma filter_colName_raises (pre post : list jval) (bad : jval) (ex : exn) :
  (forall x, In x pre -> exists v, j_getitem x "colName" = Ok v) ->
  j_getitem bad "colName" = Raise ex ->
  filter_colName name (pre ++ bad :: post) = Raise ex.
Proof.
  intros Hpre Hbad. induction pre as [|y pre IH]; simpl.
  - now rewrite Hbad.
  - destruct (Hpre y) as [v Hv]; [simpl; tauto|]. rewrite Hv. simpl.
    rewrite IH; [reflexivity|]. intros x Hx. apply Hpre. simpl. tauto.
Qed.

(** X14. The collection returned is the first item of [trpCollection], in
    the order of the answer, whose [colName] is exactly the name asked for;
    it comes from an answer without error status, and every item before it
    has a [colName] that differs. *)
Theorem found_collection_is_first_match (c : jval) :
  get_collection_from_name sv name headers = Ok (Some c) ->
  exists rv j collections pre post,
    http_get sv (TRANSKRIBUS_REST ++ "/collections")%string headers = Ok rv /\
    raise_for_status rv = Ok tt /\
    json_of sv (content rv) = Ok j /\
    j_getitem j "trpCollection" = Ok collections /\
    j_iter collections = Ok (pre ++ c :: post) /\
    j_getitem c "colName" = Ok (JStr name) /\
    forall x, In x pre ->
      exists v, j_getitem x "colName" = Ok v /\ j_eq_str v name = false.
Proof.
  intros Hget. unfold get_collection_from_name in Hget.
  apply rbind_ok in Hget as (rv & Hrv & Hget).
  apply rbind_ok in Hget as ([] & Hstatus & Hget).
  apply rbind_ok in Hget as (j & Hj & Hget).
  apply rbind_ok in Hget as (cols & Hcols & Hget).
  apply rbind_ok in Hget as (items & Hitems & Hget).
  apply rbind_ok in Hget as (kept & Hkept & Hget).
  destruct kept as [|c0 kept]; [discriminate|]. injection Hget as ->.
  destruct (filter_colName_head items c kept Hkept) as (pre & post & v & -> & Hc & Hv & Hpre).
  apply j_eq_str_true in Hv. subst v.
  exists rv, j, cols, pre, post. repeat split; assumption.
Qed.

(** X15. The lookup returns [None] only when the answer has no error
    status and every item of [trpCollection] has a [colName] that differs
    from the name asked for. *)
Theorem no_collection_means_no_match :
  get_collection_from_name sv name headers = Ok None ->
  exists rv j collections items,
    http_get sv (TRANSKRIBUS_REST ++ "/collections")%string headers = Ok rv /\
    raise_for_status rv = Ok tt /\
    json_of sv (content rv) = Ok j /\
    j_getitem j "trpCollection" = Ok collections /\
    j_iter collections = Ok items /\
    forall x, In x items ->
      exists v, j_getitem x "colName" = Ok v /\ j_eq_str v name = false.
Proof.
  intros Hget. unfold get_collection_from_name in Hget.
  apply rbind_ok in Hget as (rv & Hrv & Hget).
  apply rbind_ok in Hget as ([] & Hstatus & Hget).
  apply rbind_ok in Hget as (j & Hj & Hget).
  apply rbind_ok in Hget as (cols & Hcols & Hget).
  apply rbind_ok in Hget as (items & Hitems & Hget).
  apply rbind_ok in Hget as (kept & Hkept & Hget).
  destruct kept as [|c0 kept]; [|discriminate].
  exists rv, j, cols, items. repeat split; try assumption.
  now apply filter_colName_nil.
Qed.

(** X16. An answer with a status from 400 to 599 makes the lookup raise,
    whatever its body holds. *)
Theorem collection_lookup_checks_status (rv : response) :
  http_get sv (TRANSKRIBUS_REST ++ "/collections")%string headers = Ok rv ->
  400 <= status_code rv < 600 ->
  get_collection_from_name sv name headers = Raise RequestException.
Proof.
  intros Hrv Hstatus. unfold get_collection_from_name, raise_for_status.
  rewrite Hrv. simpl.
  assert ((400 <=? status_code rv) && (status_code rv <? 600) = true) as ->.
  { apply andb_true_iff. split; [apply Z.leb_le|apply Z.ltb_lt]; lia. }
  reflexivity.
Qed.

(** X17. The filter reads [colName] in every item of the answer: one item
    without that key makes the lookup raise, also when the collection asked
    for is listed before it. *)
Theorem one_bad_record_fails_lookup (rv : response) (j collections : jval)
        (pre post : list jval) (bad : jval) (ex : exn) :
  http_get sv (TRANSKRIBUS_REST ++ "/collections")%string headers = Ok rv ->
  raise_for_status rv = Ok tt ->
  json_of sv (content rv) = Ok j ->
  j_getitem j "trpCollection" = Ok collections ->
  j_iter collections = Ok (pre ++ bad :: post) ->
  (forall x, In x pre -> exists v, j_getitem x "colName" = Ok v) ->
  j_getitem bad "colName" = Raise ex ->
  get_collection_from_name sv name headers = Raise ex.
Proof.
  intros Hrv Hstatus Hj Hcols Hitems Hpre Hbad. unfold get_collection_from_name.
  rewrite Hrv. simpl. rewrite Hstatus. simpl. rewrite Hj. simpl.
  rewrite Hcols. simpl. rewrite Hitems. simpl.
  now rewrite (filter_colName_raises pre post bad ex Hpre Hbad).
Qed.

(** X18. A session id is returned only from a login answer without error
    status, and it is the first text that the expression
    [//sessionId/text()] finds in its body. *)
Theorem session_id_from_good_answer (username password sid : string) :
  auth_login sv username password = Ok (Some sid) ->
  exists rv ids,
    http_post sv TRANSKRIBUS_LOGIN [("user", username); ("pw", password)] = Ok rv /\
    ~ (400 <= status_code rv < 600) /\
    xpath_eval sv (content rv) "//sessionId/text()" = Ok (sid :: ids).
Proof.
  intros Hlogin. unfold auth_login, _xmlParse__xpathEval_getContent in Hlogin.
  apply rbind_ok in Hlogin as (rv & Hrv & Hlogin).
  apply rbind_ok in Hlogin as ([] & Hstatus & Hlogin).
  apply rbind_ok in Hlogin as (ids & Hids & Hlogin).
  destruct ids as [|sid0 ids]; [discriminate|]. injection Hlogin as ->.
  exists rv, ids. split; [assumption|]. split; [|assumption].
  unfold raise_for_status in Hstatus. intros [Hlo Hhi].
  apply Z.leb_le in Hlo. apply Z.ltb_lt in Hhi. rewrite Hlo, Hhi in Hstatus.
  discriminate.
Qed.

End Collections.

(** ** The documents of a run *)

Section Documents.

Variables (w : world) (fulldoc : Z -> Z -> result (list page)) (collection_id : Z).

Lemma export_docs_spec (docs_pages : list (Z * (document * list page))) (st : state) (task : nat) :
  fst (export_docs w docs_pages st task) =
    fst (process_pages w (List.concat (map (fun e : Z * (document * list page) => snd (snd e)) docs_pages)) st) /\
  fst (snd (export_docs w docs_pages st task)) =
    snd (process_pages w (List.concat (map (fun e : Z * (document * list page) => snd (snd e)) docs_pages)) st) /\
  (fst (export_docs w docs_pages st task) = Ok tt ->
   snd (snd (export_docs w docs_pages st task)) = (task + List.length docs_pages)%nat).
Proof.
  revert st task. induction docs_pages as [|[k [d ps]] rest IH]; intros st task.
  - simpl. repeat split. lia.
  - cbn [export_docs map List.concat snd List.length].
    rewrite process_pages_app.
    destruct (process_pages w ps st) as [[[]|ex] st1].
    + destruct (IH st1 (S task)) as (Hres & Hst & Htask).
      split; [exact Hres|]. split; [exact Hst|].
      intros Hok. rewrite (Htask Hok). lia.
    + simpl. repeat split. discriminate.
Qed.

Lemma get_pages_per_doc_app (docs1 docs2 : list document) (docs_pages : list (Z * (document * list page)))
      (task : nat) :
  get_pages_per_doc fulldoc collection_id (docs1 ++ docs2) docs_pages task =
  match get_pages_per_doc fulldoc collection_id docs1 docs_pages task with
  | (Ok docs_pages1, task1) =>
      get_pages_per_doc fulldoc collection_id docs2 docs_pages1 task1
  | (Raise ex, task1) => (Raise ex, task1)
  end.
Proof.
  revert docs_pages task. induction docs1 as [|d docs1 IH]; intros dp task; [reflexivity|].
  simpl. destruct (fulldoc collection_id (docId d)); [apply IH|reflexivity].
Qed.

Lemma get_pages_per_doc_listed (docs : list document) (docs_pages : list (Z * (document * list page)))
      (task : nat) :
  (forall d, In d docs -> exists ps, fulldoc collection_id (docId d) = Ok ps) ->
  exists docs_pages1,
    get_pages_per_doc fulldoc collection_id docs docs_pages task =
    (Ok docs_pages1, (task + List.length docs)%nat).
Proof.
  revert docs_pages task. induction docs as [|d docs IH]; intros dp task Hall.
  - exists dp. simpl. repeat f_equal. lia.
  - destruct (Hall d) as [ps Hps]; [simpl; tauto|]. simpl. rewrite Hps.
    destruct (IH (dict_set (docId d) (d, ps) dp) (S task)) as [dp1 Hdp1].
    { intros d' Hd'. apply Hall. simpl. tauto. }
    exists dp1. rewrite Hdp1. f_equal. simpl. lia.
Qed.

(** X19. The page lists of all documents are fetched before the first page
    is exported: when the list of one document cannot be fetched, the run
    ends with that exception, and neither the target directory nor the
    console has changed, however many documents were listed before it. *)
Theorem no_export_unless_all_listed (pre post : list document) (d : document)
        (ex : exn) (st : state) :
  (forall x, In x pre -> exists ps, fulldoc collection_id (docId x) = Ok ps) ->
  fulldoc collection_id (docId d) = Raise ex ->
  export_collection w fulldoc collection_id (pre ++ d :: post) st =
  (Raise ex, (st, List.length pre, 0%nat)).
Proof.
  intros Hpre Hd. unfold export_collection.
  rewrite get_pages_per_doc_app.
  destruct (get_pages_per_doc_listed pre [] 0 Hpre) as [dp1 ->].
  simpl. now rewrite Hd.
Qed.

Lemma dict_set_fresh {V} (k : Z) (v : V) (d : list (Z * V)) :
  ~ In k (map fst d) -> dict_set k v d = d ++ [(k, v)].
Proof.
  induction d as [|[k' v'] d IH]; intros Hnot; [reflexivity|].
  simpl in *. destruct (Z.eqb_spec k k') as [->|Hne]; [tauto|].
  rewrite IH by tauto. reflexivity.
Qed.

Lemma get_pages_per_doc_distinct (docs : list document) (pagess : list (list page))
      (docs_pages : list (Z * (document * list page))) (task : nat) :
  Forall2 (fun d ps => fulldoc collection_id (docId d) = Ok ps) docs pagess ->
  List.NoDup (map fst docs_pages ++ map docId docs) ->
  get_pages_per_doc fulldoc collection_id docs docs_pages task =
  (Ok (docs_pages ++
       map (fun dp : document * list page => (docId (fst dp), dp)) (combine docs pagess)),
   (task + List.length docs)%nat).
Proof.
  intros Hall. revert docs_pages task.
  induction Hall as [|d ps docs pagess Hd Hall IH]; intros dp task Hnodup.
  - simpl. rewrite app_nil_r. repeat f_equal. lia.
  - cbn [map] in Hnodup. simpl. rewrite Hd. rewrite dict_set_fresh.
    2: { apply List.NoDup_remove_2 in Hnodup. intros Hin. apply Hnodup.
         apply in_or_app. now left. }
    rewrite IH.
    + rewrite <- app_assoc. simpl. f_equal. lia.
    + rewrite map_app. simpl. rewrite <- app_assoc. simpl.
      apply List.NoDup_remove_1 in Hnodup as Hrest.
      apply List.NoDup_remove_2 in Hnodup as Hfresh.
      clear -Hrest Hfresh.
      assert (List.NoDup (docId d :: map fst dp ++ map docId docs)) as Hcons
        by (constructor; assumption).
      revert Hcons. generalize (map docId docs) as ids. generalize (map fst dp) as ks.
      intros ks ids Hcons.
      apply (Permutation.Permutation_NoDup (l := docId d :: ks ++ ids)); [|assumption].
      apply Permutation.Permutation_middle.
Qed.

Lemma concat_pages_combine (docs : list document) (pagess : list (list page)) :
  List.length docs = List.length pagess ->
  map (fun e : Z * (document * list page) => snd (snd e))
      (map (fun dp : document * list page => (docId (fst dp), dp)) (combine docs pagess))
  = pagess.
Proof.
  revert pagess. induction docs as [|d docs IH]; intros [|ps pagess] Hlen;
    try discriminate; [reflexivity|].
  simpl. f_equal. apply IH. simpl in Hlen. lia.
Qed.

(** X20. When the documents of the listing have distinct ids and every page
    list can be fetched, the run exports the pages of the documents in the
    order of the listing, each document's pages in their own order, as one
    pass of the page loop over all of them: it ends as that pass ends and
    leaves the state that pass leaves; the first progress bar advances once
    per document, and so does the second when the pass raises nothing. *)
Theorem documents_exported_in_listing_order (docs : list document)
        (pagess : list (list page)) (st : state) :
  List.NoDup (map docId docs) ->
  Forall2 (fun d ps => fulldoc collection_id (docId d) = Ok ps) docs pagess ->
  fst (export_collection w fulldoc collection_id docs st) =
    fst (process_pages w (List.concat pagess) st) /\
  fst (fst (snd (export_collection w fulldoc collection_id docs st))) =
    snd (process_pages w (List.concat pagess) st) /\
  snd (fst (snd (export_collection w fulldoc collection_id docs st))) = List.length docs /\
  (fst (export_collection w fulldoc collection_id docs st) = Ok tt ->
   snd (snd (export_collection w fulldoc collection_id docs st)) = List.length docs).
Proof.
  intros Hnodup Hall. unfold export_collection.
  rewrite (get_pages_per_doc_distinct docs pagess [] 0 Hall) by exact Hnodup.
  assert (List.length docs = List.length pagess) as Hlen.
  { clear -Hall. induction Hall; simpl; congruence. }
  cbn [app].
  destruct (export_docs_spec
              (map (fun dp : document * list page => (docId (fst dp), dp))
                   (combine docs pagess)) st 0) as (Hres & Hst & Htask).
  rewrite (concat_pages_combine docs pagess Hlen) in Hres, Hst.
  rewrite length_map, length_combine, <- Hlen, Nat.min_id in Htask.
  destruct (export_docs w _ st 0) as [r [st' exported]]. simpl in *.
  repeat split; assumption.
Qed.

End Documents.

(** ** A document listed twice *)

Section Duplicates.

Variables (w : world) (fulldoc : Z -> Z -> result (list page)) (collection_id : Z).

Let fetched (v : list (Z * list page)) : Prop :=
  forall k ps, In (k, ps) v -> fulldoc collection_id k = Ok ps.

Lemma pages_by_id_dict_set (k : Z) (d : document) (ps : list page)
      (docs_pages : list (Z * (document * list page))) :
  pages_by_id (dict_set k (d, ps) docs_pages) = dict_set k ps (pages_by_id docs_pages).
Proof.
  induction docs_pages as [|[k' [d' ps']] rest IH]; [reflexivity|].
  simpl. destruct (k =? k'); simpl; [reflexivity|]. now rewrite <- IH.
Qed.

Lemma dict_set_known (k : Z) (ps : list page) (v : list (Z * list page)) :
  fetched v -> fulldoc collection_id k = Ok ps -> In k (map fst v) ->
  dict_set k ps v = v.
Proof.
  intros Hv Hk. induction v as [|[k' ps'] v IH]; intros Hin; [destruct Hin|].
  simpl. destruct (Z.eqb_spec k k') as [->|Hne].
  - assert (fulldoc collection_id k' = Ok ps') as Hk'
      by (apply Hv; simpl; tauto).
    rewrite Hk in Hk'. injection Hk' as ->. reflexivity.
  - f_equal. apply IH.
    + intros k0 ps0 H0. apply Hv. simpl. tauto.
    + destruct Hin as [Heq|Hin]; [simpl in Heq; congruence|assumption].
Qed.

Lemma dict_set_fetched (k : Z) (ps : list page) (v : list (Z * list page)) :
  fetched v -> fulldoc collection_id k = Ok ps -> fetched (dict_set k ps v).
Proof.
  intros Hv Hk. induction v as [|[k' ps'] v IH]; intros k0 ps0 Hin.
  - destruct Hin as [[= <- <-]|[]]. assumption.
  - simpl in Hin. destruct (Z.eqb_spec k k') as [->|Hne].
    + destruct Hin as [[= <- <-]|Hin]; [assumption|]. apply Hv. simpl. tauto.
    + destruct Hin as [[= <- <-]|Hin]; [apply Hv; simpl; tauto|].
      apply IH; [|assumption]. intros k1 ps1 H1. apply Hv. simpl. tauto.
Qed.

Lemma dict_set_keys {V} (k k0 : Z) (x : V) (v : list (Z * V)) :
  In k0 (map fst (dict_set k x v)) <-> k0 = k \/ In k0 (map fst v).
Proof.
  induction v as [|[k' x'] v IH]; simpl.
  - intuition congruence.
  - destruct (Z.eqb_spec k k') as [->|Hne]; simpl; [intuition congruence|].
    rewrite IH. intuition congruence.
Qed.

Lemma get_pages_per_doc_keeps_keys (docs : list document)
      (docs_pages docs_pages1 : list (Z * (document * list page))) (task task1 : nat)
      (k : Z) :
  In k (map fst (pages_by_id docs_pages)) ->
  get_pages_per_doc fulldoc collection_id docs docs_pages task = (Ok docs_pages1, task1) ->
  In k (map fst (pages_by_id docs_pages1)).
Proof.
  revert docs_pages task. induction docs as [|d docs IH]; intros dp task Hin Hget;
    simpl in Hget.
  - now injection Hget as <- _.
  - destruct (fulldoc collection_id (docId d)) as [ps|ex]; [|discriminate].
    apply (IH _ _) in Hget; [assumption|].
    rewrite pages_by_id_dict_set. apply dict_set_keys. now right.
Qed.

Lemma get_pages_per_doc_fetched (docs : list document)
      (docs_pages docs_pages1 : list (Z * (document * list page))) (task task1 : nat) :
  fetched (pages_by_id docs_pages) ->
  get_pages_per_doc fulldoc collection_id docs docs_pages task = (Ok docs_pages1, task1) ->
  fetched (pages_by_id docs_pages1) /\
  forall d, In d docs -> In (docId d) (map fst (pages_by_id docs_pages1)).
Proof.
  revert docs_pages task. induction docs as [|d docs IH]; intros dp task Hv Hget.
  - simpl in Hget. injection Hget as <- _. split; [assumption|intros d []].
  - simpl in Hget. destruct (fulldoc collection_id (docId d)) as [ps|ex] eqn:Hd;
      [|discriminate].
    assert (fetched (pages_by_id (dict_set (docId d) (d, ps) dp))) as Hv'.
    { rewrite pages_by_id_dict_set. now apply dict_set_fetched. }
    destruct (IH _ _ Hv' Hget) as [Hv1 Hkeys]. split; [assumption|].
    intros d0 [<-|Hin]; [|now apply Hkeys].
    refine (get_pages_per_doc_keeps_keys _ _ _ _ _ _ _ Hget).
    rewrite pages_by_id_dict_set. apply dict_set_keys. now left.
Qed.

Lemma get_pages_per_doc_same_pages (docs : list document)
      (dp dp' : list (Z * (document * list page))) (task task' : nat) :
  pages_by_id dp = pages_by_id dp' ->
  match get_pages_per_doc fulldoc collection_id docs dp task,
        get_pages_per_doc fulldoc collection_id docs dp' task' with
  | (Ok a, _), (Ok b, _) => pages_by_id a = pages_by_id b
  | (Raise ex, _), (Raise ex', _) => ex = ex'
  | _, _ => False
  end.
Proof.
  revert dp dp' task task'. induction docs as [|d docs IH]; intros dp dp' task task' Hsame.
  - exact Hsame.
  - simpl. destruct (fulldoc collection_id (docId d)) as [ps|ex]; [|reflexivity].
    apply IH. now rewrite !pages_by_id_dict_set, Hsame.
Qed.

Lemma export_docs_by_pages (dp dp' : list (Z * (document * list page))) (st : state)
      (task : nat) :
  pages_by_id dp = pages_by_id dp' ->
  export_docs w dp st task = export_docs w dp' st task.
Proof.
  revert dp' st task. induction dp as [|[k [d ps]] dp IH];
    intros [|[k' [d' ps']] dp'] st task Hsame; try discriminate; [reflexivity|].
  simpl in Hsame. injection Hsame as _ <- Hrest. simpl.
  destruct (process_pages w ps st) as [[[]|ex] st1]; [|reflexivity].
  now apply IH.
Qed.

(** X21. A document id that comes a second time in the listing is fetched
    again but exported once: with a service that answers alike for the same
    id, the outcome of the run, the target directory and the console, and
    the advances of the export bar are those of the run without the second
    entry. *)
Theorem document_listed_twice_is_exported_once (pre mid post : list document)
        (d d' : document) (st : state) :
  docId d' = docId d ->
  fst (export_collection w fulldoc collection_id (pre ++ d :: mid ++ d' :: post) st) =
    fst (export_collection w fulldoc collection_id (pre ++ d :: mid ++ post) st) /\
  fst (fst (snd (export_collection w fulldoc collection_id
                   (pre ++ d :: mid ++ d' :: post) st))) =
    fst (fst (snd (export_collection w fulldoc collection_id
                     (pre ++ d :: mid ++ post) st))) /\
  snd (snd (export_collection w fulldoc collection_id (pre ++ d :: mid ++ d' :: post) st)) =
    snd (snd (export_collection w fulldoc collection_id (pre ++ d :: mid ++ post) st)).
Proof.
  intros Hid. unfold export_collection.
  replace (pre ++ d :: mid ++ d' :: post) with ((pre ++ d :: mid) ++ d' :: post)
    by (now rewrite <- app_assoc).
  replace (pre ++ d :: mid ++ post) with ((pre ++ d :: mid) ++ post)
    by (now rewrite <- app_assoc).
  rewrite (get_pages_per_doc_app fulldoc collection_id (pre ++ d :: mid) (d' :: post)).
  rewrite (get_pages_per_doc_app fulldoc collection_id (pre ++ d :: mid) post).
  destruct (get_pages_per_doc fulldoc collection_id (pre ++ d :: mid) [] 0)
    as [[dp1|ex] t1] eqn:Hfirst; [|repeat split; reflexivity].
  destruct (get_pages_per_doc_fetched (pre ++ d :: mid) [] dp1 0 t1) as [Hv Hkeys];
    [intros k ps []|assumption|].
  assert (In (docId d) (map fst (pages_by_id dp1))) as Hin.
  { apply Hkeys. apply in_or_app. simpl. tauto. }
  assert (exists ps, fulldoc collection_id (docId d) = Ok ps) as [ps Hps].
  { apply in_map_iff in Hin as ([k ps] & Hk & Hin). simpl in Hk. subst k.
    exists ps. now apply Hv. }
  cbn [get_pages_per_doc]. rewrite Hid, Hps.
  assert (pages_by_id (dict_set (docId d) (d', ps) dp1) = pages_by_id dp1) as Hsame.
  { rewrite pages_by_id_dict_set. now apply dict_set_known. }
  pose proof (get_pages_per_doc_same_pages post _ _ (S t1) t1 Hsame) as Hpost.
  destruct (get_pages_per_doc fulldoc collection_id post
              (dict_set (docId d) (d', ps) dp1) (S t1)) as [[a|e1] ta],
           (get_pages_per_doc fulldoc collection_id post dp1 t1) as [[b|e2] tb];
    try contradiction.
  - rewrite (export_docs_by_pages a b st 0 Hpost).
    destruct (export_docs w b st 0) as [r [st' exported]]. repeat split; reflexivity.
  - subst e2. repeat split; reflexivity.
Qed.

End Duplicates.


(** ** Pages that share a stem *)

Section SameStem.

Variable w : world.

(** X22. Nothing keeps the file names of two pages apart: when a page is
    followed by one of the same stem, the turn of the first ends without an
    exception and the body of the second runs to its end, the text file
    and the metadata file of the first page hold the data of the second
    after the two turns. *)
Theorem later_page_overwrites (p1 p2 : page) (st st1 st2 : state) :
  path_stem w (imgFileName p1) = path_stem w (imgFileName p2) ->
  process_page w p1 st = (Ok tt, st1) ->
  page_body w p2 st1 = (Ok tt, st2) ->
  exists latest0 rest s,
    fetch_page_text w p2 = Ok (latest0 :: rest, XStr s) /\
    fst (process_pages w [p1; p2] st) = Ok tt /\
    fs (snd (process_pages w [p1; p2] st)) !! text_file_name_of w p1 = Some (File s) /\
    fs (snd (process_pages w [p1; p2] st)) !! meta_file_name_of w p1 =
      Some (File (String.concat char_nl (meta_of latest0))).
Proof.
  intros Hstem Hfirst Hbody. pose proof (text_meta_names_differ w p2) as Hne.
  assert (text_file_name_of w p1 = text_file_name_of w p2) as ->
    by (unfold text_file_name_of; now rewrite Hstem).
  assert (meta_file_name_of w p1 = meta_file_name_of w p2) as ->
    by (unfold meta_file_name_of; now rewrite Hstem).
  rewrite process_pages_cons, Hfirst, process_pages_cons, process_page_of_body, Hbody.
  destruct (fetch_page_text w p2) as [[latest text]|ex] eqn:Hfetch.
  2: { rewrite (page_body_fetch_raises w p2 st1 ex Hfetch) in Hbody. discriminate. }
  rewrite (page_body_fetch_ok w p2 st1 latest text Hfetch) in Hbody.
  destruct (fetch_page_text_inv w p2 latest text Hfetch)
    as (m & latest0 & rest & _ & _ & ->).
  destruct (write_page_ok_inv w p2 _ text st1 st2 Hbody) as (s & -> & _ & ->).
  exists latest0, rest, s. simpl. split; [reflexivity|]. split; [reflexivity|].
  split; [|apply lookup_insert_eq].
  rewrite lookup_insert_ne by congruence. apply lookup_insert_eq.
Qed.

End SameStem.

(** ** The scenarios, evaluated *)

(** The page [img001.jpg] with version A (timestamp 100, holding a text) and
    version B (timestamp 200, holding none): the text written is that of A,
    the metadata are those of B. *)
Example fallback_text_primary_meta :
  let dir := fs (snd (process_page world_demo page_two_versions st0)) in
  dir !! "img001.txt" = Some (File "fallback text") /\
  dir !! "img001-meta.txt" =
    Some (File ("status:" ++ char_tab ++ "IN_PROGRESS" ++ char_nl ++
                "userName:" ++ char_tab ++ "bob" ++ char_nl ++
                "nrOfLines:" ++ char_tab ++ "0")%string).
Proof. split; reflexivity. Qed.

Lemma primary_is_first_latest_witness :
  transcripts page_two_versions <> [] /\
  exists max_ts primary pre post,
    max_ts_of (transcripts page_two_versions) = Ok max_ts /\
    item0 (latest_of max_ts (transcripts page_two_versions)) = Ok primary /\
    transcripts page_two_versions = pre ++ primary :: post /\
    timestamp primary = max_ts /\
    (forall t, In t (transcripts page_two_versions) -> timestamp t <= timestamp primary) /\
    (forall t, In t pre -> timestamp t < timestamp primary).
Proof.
  split; [discriminate|].
  apply (primary_is_first_latest (transcripts page_two_versions)). discriminate.
Defined.


Lemma empty_page_reports_error_witness :
  render world_demo (ErrorProcessing (mkPage "img002.jpg" []) ValueError) = Ok tt /\
  process_page world_demo (mkPage "img002.jpg" []) st0 =
    (Ok tt,
     mkState (fs st0)
             (console st0 ++ [ErrorProcessing (mkPage "img002.jpg" []) ValueError])
             (S (advanced st0))).
Proof.
  split; [reflexivity|].
  apply (empty_page_reports_error world_demo "img002.jpg" st0). reflexivity.
Defined.

Lemma page_errors_are_contained_witness :
  fst (process_pages world_demo [page_no_version] st0) = Ok tt /\
  page_body world_demo page_same_timestamp
            (snd (process_pages world_demo [page_no_version] st0)) =
    (Raise IndexError, snd (process_pages world_demo [page_no_version] st0)) /\
  render world_demo (ErrorProcessing page_same_timestamp IndexError) = Ok tt /\
  process_pages world_demo
                ([page_no_version] ++ page_same_timestamp :: [page_two_versions]) st0 =
  process_pages world_demo [page_two_versions]
    (mkState (fs (snd (process_pages world_demo [page_no_version] st0)))
             (console (snd (process_pages world_demo [page_no_version] st0)) ++
                [ErrorProcessing page_same_timestamp IndexError])
             (S (advanced (snd (process_pages world_demo [page_no_version] st0))))).
Proof.
  split; [reflexivity|]. split; [reflexivity|]. split; [reflexivity|].
  apply (page_errors_are_contained world_demo [page_no_version] [page_two_versions]
           page_same_timestamp st0
           (snd (process_pages world_demo [page_no_version] st0)) IndexError);
    reflexivity.
Defined.


(** ** The further properties on the scenarios *)

Lemma run_touches_only_page_files_witness :
  (forall p, In p [page_two_versions; page_no_version] ->
     "notes.txt" <> text_file_name_of world_demo p /\
     "notes.txt" <> meta_file_name_of world_demo p) /\
  fs (snd (process_pages world_demo [page_two_versions; page_no_version] st_notes))
    !! "notes.txt" = Some (File "keep").
Proof.
  assert (forall p, In p [page_two_versions; page_no_version] ->
            "notes.txt" <> text_file_name_of world_demo p /\
            "notes.txt" <> meta_file_name_of world_demo p) as Hother.
  { intros p [<-|[<-|[]]]; split; vm_compute; discriminate. }
  split; [exact Hother|].
  rewrite (run_touches_only_page_files world_demo
             [page_two_versions; page_no_version] st_notes "notes.txt" Hother).
  reflexivity.
Defined.



Lemma fetch_error_skips_fallback_witness :
  item0 (latest_of 300 (transcripts page_gone)) = Ok version_gone /\
  get_text_from_transcript world_demo (url version_gone) = Raise RequestException /\
  get_text_from_transcript world_demo (url version_A) = Ok (XStr "fallback text") /\
  render world_demo (ErrorProcessing page_gone RequestException) = Ok tt /\
  page_body world_demo page_gone st0 = (Raise RequestException, st0) /\
  process_page world_demo page_gone st0 =
  (Ok tt, mkState (fs st0) (console st0 ++ [ErrorProcessing page_gone RequestException])
                  (S (advanced st0))).
Proof.
  split; [reflexivity|]. split; [reflexivity|]. split; [reflexivity|].
  split; [reflexivity|].
  destruct (fetch_error_skips_fallback world_demo page_gone st0 300 version_gone
              RequestException eq_refl eq_refl eq_refl eq_refl) as (Hbody & _ & Hturn).
  split; [exact Hbody|]. apply Hturn. reflexivity.
Defined.

Lemma structured_text_is_not_written_witness :
  get_text_from_transcript world_attr (url version_D) = Ok unicode_with_attr /\
  render world_attr (Writing (text_file_name_of world_attr page_attr) 2) = Ok tt /\
  render world_attr (ErrorProcessing page_attr TypeError) = Ok tt /\
  process_page world_attr page_attr st0 =
  (Ok tt,
   mkState (fs st0)
           (console st0 ++ [Writing (text_file_name_of world_attr page_attr) 2;
                            ErrorProcessing page_attr TypeError])
           (S (advanced st0))).
Proof.
  split; [reflexivity|]. split; [reflexivity|]. split; [reflexivity|].
  assert (forall s, unicode_with_attr <> XStr s) as Hnostr by (intros s; discriminate).
  destruct (structured_text_is_not_written world_attr page_attr st0 100 version_D
              unicode_with_attr 2 eq_refl eq_refl eq_refl eq_refl eq_refl Hnostr eq_refl)
    as (_ & _ & Hturn).
  apply Hturn. reflexivity.
Defined.

Lemma bad_timestamp_fails_page_witness :
  max_ts_of (transcripts page_far_future) = Ok 1000000000000000 /\
  fromtimestamp world_demo 1000000000000000 = Raise ValueError /\
  render world_demo (ErrorProcessing page_far_future ValueError) = Ok tt /\
  process_page world_demo page_far_future st0 =
  (Ok tt, mkState (fs st0) (console st0 ++ [ErrorProcessing page_far_future ValueError])
                  (S (advanced st0))).
Proof.
  split; [reflexivity|]. split; [reflexivity|]. split; [reflexivity|].
  destruct (bad_timestamp_fails_page world_demo page_far_future st0 1000000000000000
              ValueError eq_refl eq_refl) as (_ & _ & Hturn).
  apply Hturn. reflexivity.
Defined.

Lemma successful_turn_writes_text_witness :
  page_body world_demo page_two_versions st0 =
    (Ok tt, snd (page_body world_demo page_two_versions st0)) /\
  exists latest s,
    fetch_page_text world_demo page_two_versions = Ok (latest, XStr s) /\
    fs (snd (page_body world_demo page_two_versions st0))
      !! text_file_name_of world_demo page_two_versions = Some (File s) /\
    console (snd (page_body world_demo page_two_versions st0)) =
      console st0 ++
      [Writing (text_file_name_of world_demo page_two_versions) (String.length s)] /\
    advanced (snd (page_body world_demo page_two_versions st0)) = advanced st0.
Proof.
  split; [reflexivity|].
  apply (successful_turn_writes_text world_demo page_two_versions st0). reflexivity.
Defined.

Lemma fallback_is_first_older_witness :
  max_ts_of (transcripts page_two_versions) = Ok 200 /\
  item0 (latest_of 200 (transcripts page_two_versions)) = Ok version_B /\
  item0 (o_latest_of version_B (transcripts page_two_versions)) = Ok version_A /\
  timestamp version_A < timestamp version_B.
Proof.
  split; [reflexivity|]. split; [reflexivity|]. split; [reflexivity|].
  apply (fallback_is_first_older (transcripts page_two_versions) 200 version_B);
    reflexivity.
Defined.

Lemma no_fallback_iff_one_timestamp_witness :
  max_ts_of (transcripts page_same_timestamp) = Ok 100 /\
  item0 (latest_of 100 (transcripts page_same_timestamp)) = Ok version_B100 /\
  (o_latest_of version_B100 (transcripts page_same_timestamp) = [] <->
   forall t, In t (transcripts page_same_timestamp) -> timestamp t = 100).
Proof.
  split; [reflexivity|]. split; [reflexivity|].
  apply (no_fallback_iff_one_timestamp (transcripts page_same_timestamp) 100 version_B100);
    reflexivity.
Defined.

Lemma text_of_parsed_sound_witness :
  text_of_parsed (pcgts [("TextRegion", region (XStr "fallback text"))]) =
    Ok (XStr "fallback text") /\
  XStr "fallback text" <> XNone /\
  exists top root pg tr te,
    pcgts [("TextRegion", region (XStr "fallback text"))] = XDict top /\
    dict_get "PcGts" top = Some (XDict root) /\
    dict_get "Page" root = Some (XDict pg) /\
    dict_get "TextRegion" pg = Some (XDict tr) /\
    dict_get "TextEquiv" tr = Some (XDict te) /\
    dict_get "Unicode" te = Some (XStr "fallback text").
Proof.
  split; [reflexivity|]. split; [discriminate|].
  apply (text_of_parsed_sound (pcgts [("TextRegion", region (XStr "fallback text"))])).
  - reflexivity.
  - discriminate.
Defined.

Lemma text_of_parsed_raises_only_witness :
  text_of_parsed (XDict [("html", XNone)]) = Raise (KeyError "PcGts") /\
  (KeyError "PcGts" = TypeError \/ KeyError "PcGts" = KeyError "PcGts" \/
   KeyError "PcGts" = KeyError "Page" \/ KeyError "PcGts" = KeyError "Unicode").
Proof.
  split; [reflexivity|].
  apply (text_of_parsed_raises_only (XDict [("html", XNone)])). reflexivity.
Defined.

Lemma text_of_single_region_witness :
  text_of_parsed (pcgts [("TextRegion", region (XStr "fallback text"))]) =
  Ok (XStr "fallback text").
Proof.
  apply (text_of_single_region
           (pcgts [("TextRegion", region (XStr "fallback text"))])
           (XDict [("Page", XDict [("@imageFilename", XStr "img001.jpg");
                                   ("TextRegion", region (XStr "fallback text"))])])
           [("@imageFilename", XStr "img001.jpg");
            ("TextRegion", region (XStr "fallback text"))]
           eq_refl eq_refl
           [("@id", XStr "r1"); ("TextEquiv", XDict [("Unicode", XStr "fallback text")])]
           [("Unicode", XStr "fallback text")]
           (XStr "fallback text")); reflexivity.
Defined.

Lemma text_equiv_without_unicode_raises_witness :
  text_of_parsed
    (pcgts [("TextRegion", XDict [("@id", XStr "r1"); ("TextEquiv", XNone)])]) =
    Raise TypeError /\
  text_of_parsed
    (pcgts [("TextRegion",
             XDict [("@id", XStr "r1"); ("TextEquiv", XDict [("@conf", XStr "0.9")])])]) =
    Raise (KeyError "Unicode").
Proof.
  split.
  - destruct (text_equiv_without_unicode_raises
                (pcgts [("TextRegion", XDict [("@id", XStr "r1"); ("TextEquiv", XNone)])])
                (XDict [("Page", XDict [("@imageFilename", XStr "img001.jpg");
                                        ("TextRegion",
                                         XDict [("@id", XStr "r1"); ("TextEquiv", XNone)])])])
                [("@imageFilename", XStr "img001.jpg");
                 ("TextRegion", XDict [("@id", XStr "r1"); ("TextEquiv", XNone)])]
                eq_refl eq_refl
                [("@id", XStr "r1"); ("TextEquiv", XNone)] eq_refl) as [Hempty _].
    apply Hempty. reflexivity.
  - destruct (text_equiv_without_unicode_raises
                (pcgts [("TextRegion",
                         XDict [("@id", XStr "r1");
                                ("TextEquiv", XDict [("@conf", XStr "0.9")])])])
                (XDict [("Page", XDict [("@imageFilename", XStr "img001.jpg");
                                        ("TextRegion",
                                         XDict [("@id", XStr "r1");
                                                ("TextEquiv",
                                                 XDict [("@conf", XStr "0.9")])])])])
                [("@imageFilename", XStr "img001.jpg");
                 ("TextRegion",
                  XDict [("@id", XStr "r1"); ("TextEquiv", XDict [("@conf", XStr "0.9")])])]
                eq_refl eq_refl
                [("@id", XStr "r1"); ("TextEquiv", XDict [("@conf", XStr "0.9")])] eq_refl)
      as [_ Hchild].
    apply (Hchild [("@conf", XStr "0.9")]); reflexivity.
Defined.

Lemma no_fallback_page_fails_witness :
  o_latest_of version_B100 (transcripts page_one_version) = [] /\
  render world_demo (ErrorProcessing page_one_version IndexError) = Ok tt /\
  process_page world_demo page_one_version st0 =
  (Ok tt, mkState (fs st0) (console st0 ++ [ErrorProcessing page_one_version IndexError])
                  (S (advanced st0))).
Proof.
  split; [reflexivity|]. split; [reflexivity|].
  apply (no_fallback_page_fails world_demo page_one_version st0 100 version_B100);
    reflexivity.
Defined.

Lemma empty_text_written_with_fallback_witness :
  get_text_from_transcript world_demo (url version_B) = Ok XNone /\
  item0 (o_latest_of version_B (transcripts page_both_none)) = Ok version_C100 /\
  get_text_from_transcript world_demo (url version_C100) = Ok XNone /\
  fs (snd (process_page world_demo page_both_none st0))
    !! text_file_name_of world_demo page_both_none = Some (File "").
Proof.
  split; [reflexivity|]. split; [reflexivity|]. split; [reflexivity|].
  apply (empty_text_written_with_fallback world_demo page_both_none st0 200
           version_B version_C100); try reflexivity.
  vm_compute; discriminate.
Defined.

Lemma later_page_overwrites_witness :
  path_stem world_two_texts (imgFileName page_jpg) =
    path_stem world_two_texts (imgFileName page_png) /\
  fst (process_page world_two_texts page_jpg st0) = Ok tt /\
  fst (page_body world_two_texts page_png
         (snd (process_page world_two_texts page_jpg st0))) = Ok tt /\
  fetch_page_text world_two_texts page_jpg = Ok ([version_A], XStr "fallback text") /\
  exists latest0 rest s,
    fetch_page_text world_two_texts page_png = Ok (latest0 :: rest, XStr s) /\
    fst (process_pages world_two_texts [page_jpg; page_png] st0) = Ok tt /\
    fs (snd (process_pages world_two_texts [page_jpg; page_png] st0))
      !! text_file_name_of world_two_texts page_jpg = Some (File s) /\
    fs (snd (process_pages world_two_texts [page_jpg; page_png] st0))
      !! meta_file_name_of world_two_texts page_jpg =
      Some (File (String.concat char_nl (meta_of latest0))).
Proof.
  split; [reflexivity|]. split; [reflexivity|]. split; [reflexivity|].
  split; [reflexivity|].
  apply (later_page_overwrites world_two_texts page_jpg page_png st0
           (snd (process_page world_two_texts page_jpg st0))
           (snd (page_body world_two_texts page_png
                   (snd (process_page world_two_texts page_jpg st0)))));
    reflexivity.
Defined.

Lemma found_collection_is_first_match_witness :
  get_collection_from_name service_demo "Cadmania" [] =
    Ok (Some (collection_json 2 "Cadmania")) /\
  exists rv j collections pre post,
    http_get service_demo (TRANSKRIBUS_REST ++ "/collections")%string [] = Ok rv /\
    raise_for_status rv = Ok tt /\
    json_of service_demo (content rv) = Ok j /\
    j_getitem j "trpCollection" = Ok collections /\
    j_iter collections = Ok (pre ++ collection_json 2 "Cadmania" :: post) /\
    j_getitem (collection_json 2 "Cadmania") "colName" = Ok (JStr "Cadmania") /\
    forall x, In x pre ->
      exists v, j_getitem x "colName" = Ok v /\ j_eq_str v "Cadmania" = false.
Proof.
  split; [reflexivity|].
  apply (found_collection_is_first_match service_demo "Cadmania" []). reflexivity.
Defined.

Lemma no_collection_means_no_match_witness :
  get_collection_from_name service_demo "Nowhere" [] = Ok None /\
  exists rv j collections items,
    http_get service_demo (TRANSKRIBUS_REST ++ "/collections")%string [] = Ok rv /\
    raise_for_status rv = Ok tt /\
    json_of service_demo (content rv) = Ok j /\
    j_getitem j "trpCollection" = Ok collections /\
    j_iter collections = Ok items /\
    forall x, In x items ->
      exists v, j_getitem x "colName" = Ok v /\ j_eq_str v "Nowhere" = false.
Proof.
  split; [reflexivity|].
  apply (no_collection_means_no_match service_demo "Nowhere" []). reflexivity.
Defined.

Lemma collection_lookup_checks_status_witness :
  http_get service_gone (TRANSKRIBUS_REST ++ "/collections")%string [] =
    Ok (mkResponse 401 collections_body) /\
  400 <= status_code (mkResponse 401 collections_body) < 600 /\
  get_collection_from_name service_gone "Cadmania" [] = Raise RequestException.
Proof.
  split; [reflexivity|]. split; [simpl; lia|].
  apply (collection_lookup_checks_status service_gone "Cadmania" []
           (mkResponse 401 collections_body)); [reflexivity|simpl; lia].
Defined.

Lemma one_bad_record_fails_lookup_witness :
  j_getitem (collection_json 2 "Cadmania") "colName" = Ok (JStr "Cadmania") /\
  j_getitem (JDict [("colId", JNum 9)]) "colName" = Raise (KeyError "colName") /\
  get_collection_from_name service_bad_record "Cadmania" [] = Raise (KeyError "colName").
Proof.
  split; [reflexivity|]. split; [reflexivity|].
  apply (one_bad_record_fails_lookup service_bad_record "Cadmania" []
           (mkResponse 200 collections_body)
           (JDict [("trpCollection",
                    JList [collection_json 2 "Cadmania"; JDict [("colId", JNum 9)]])])
           (JList [collection_json 2 "Cadmania"; JDict [("colId", JNum 9)]])
           [collection_json 2 "Cadmania"] [] (JDict [("colId", JNum 9)])
           (KeyError "colName")); try reflexivity.
  intros x [<-|[]]. exists (JStr "Cadmania"). reflexivity.
Defined.

Lemma session_id_from_good_answer_witness :
  auth_login service_demo "alice" "secret" = Ok (Some "ABC") /\
  exists rv ids,
    http_post service_demo TRANSKRIBUS_LOGIN [("user", "alice"); ("pw", "secret")] = Ok rv /\
    ~ (400 <= status_code rv < 600) /\
    xpath_eval service_demo (content rv) "//sessionId/text()" = Ok ("ABC" :: ids).
Proof.
  split; [reflexivity|].
  apply (session_id_from_good_answer service_demo "alice" "secret" "ABC"). reflexivity.
Defined.

Lemma no_export_unless_all_listed_witness :
  fulldoc_demo 7 (docId doc1) = Ok [page_two_versions] /\
  fulldoc_demo 7 (docId doc3) = Raise RequestException /\
  export_collection world_demo fulldoc_demo 7 ([doc1] ++ doc3 :: [doc2]) st0 =
  (Raise RequestException, (st0, List.length [doc1], 0%nat)).
Proof.
  split; [reflexivity|]. split; [reflexivity|].
  apply (no_export_unless_all_listed world_demo fulldoc_demo 7 [doc1] [doc2] doc3
           RequestException st0); [|reflexivity].
  intros x [<-|[]]. exists [page_two_versions]. reflexivity.
Defined.

Lemma documents_exported_in_listing_order_witness :
  List.NoDup (map docId [doc1; doc2]) /\
  Forall2 (fun d ps => fulldoc_demo 7 (docId d) = Ok ps) [doc1; doc2]
          [[page_two_versions]; [page_no_version; page_text]] /\
  fst (export_collection world_demo fulldoc_demo 7 [doc1; doc2] st0) = Ok tt /\
  fst (fst (snd (export_collection world_demo fulldoc_demo 7 [doc1; doc2] st0))) =
    snd (process_pages world_demo
           (List.concat [[page_two_versions]; [page_no_version; page_text]]) st0) /\
  snd (snd (export_collection world_demo fulldoc_demo 7 [doc1; doc2] st0)) =
    List.length [doc1; doc2].
Proof.
  assert (List.NoDup (map docId [doc1; doc2])) as Hnodup.
  { repeat constructor; simpl; intuition discriminate. }
  assert (Forall2 (fun d ps => fulldoc_demo 7 (docId d) = Ok ps) [doc1; doc2]
                  [[page_two_versions]; [page_no_version; page_text]]) as Hall
    by (repeat constructor).
  split; [exact Hnodup|]. split; [exact Hall|]. split; [reflexivity|].
  destruct (documents_exported_in_listing_order world_demo fulldoc_demo 7 [doc1; doc2]
              [[page_two_versions]; [page_no_version; page_text]] st0 Hnodup Hall)
    as (_ & Hst & _ & Hbar).
  split; [exact Hst|]. apply Hbar. reflexivity.
Defined.

Lemma document_listed_twice_is_exported_once_witness :
  docId doc1_again = docId doc1 /\
  fst (fst (snd (export_collection world_demo fulldoc_demo 7
                   ([] ++ doc1 :: [doc2] ++ doc1_again :: []) st0))) =
  fst (fst (snd (export_collection world_demo fulldoc_demo 7
                   ([] ++ doc1 :: [doc2] ++ []) st0))).
Proof.
  split; [reflexivity|].
  apply (document_listed_twice_is_exported_once world_demo fulldoc_demo 7 [] [doc2] []
           doc1 doc1_again st0). reflexivity.
Defined.
